(** * The WXF encoder chain of [wxfserializer/wxfencoder.py]

    A shallow embedding of [WXFEncoder], [DefaultWXFEncoder] and of the
    provider they call back into, followed by the properties of the token
    streams they produce. *)

From Stdlib Require Import ZArith Floats.SpecFloat.
From stdpp Require Import base option list strings gmap pretty.


Set Warnings "-register-all".

(** ** Python values *)

(** The runtime classes the encoder tests for.  [Tother] stands for every
    class unrelated to the built-in ones (sets, bytes, user classes). *)
Inductive PyType :=
  | Tstr | Tint | Tbool | Tlist | Tdict | TNoneType | Tfloat | Tcomplex
  | Tother (class_name : string).

(** Values handed to the encoder.  A [dict] is kept as its entries in
    iteration order; a [float] is an IEEE 754 datum. *)
Inductive PyObj :=
  | PyStr (s : string)
  | PyInt (n : Z)
  | PyBool (b : bool)
  | PyList (elements : list PyObj)
  | PyDict (entries : list (PyObj * PyObj))
  | PyNone
  | PyFloat (x : spec_float)
  | PyComplex (re im : spec_float)
  | PyOther (class_name : string).

Definition type_of (o : PyObj) : PyType :=
  match o with
  | PyStr _ => Tstr
  | PyInt _ => Tint
  | PyBool _ => Tbool
  | PyList _ => Tlist
  | PyDict _ => Tdict
  | PyNone => TNoneType
  | PyFloat _ => Tfloat
  | PyComplex _ _ => Tcomplex
  | PyOther c => Tother c
  end.

Definition PyType_eqb (a b : PyType) : bool :=
  match a, b with
  | Tstr, Tstr | Tint, Tint | Tbool, Tbool | Tlist, Tlist | Tdict, Tdict
  | TNoneType, TNoneType | Tfloat, Tfloat | Tcomplex, Tcomplex => true
  | Tother c, Tother d => String.eqb c d
  | _, _ => false
  end.

(** [bool] is the one built-in class that derives from another one the
    encoder tests for: [issubclass(bool, int)] holds in Python. *)
Definition issubclass (t c : PyType) : bool :=
  PyType_eqb t c ||
  match t, c with
  | Tbool, Tint => true
  | _, _ => false
  end.

Definition isinstance (o : PyObj) (classes : list PyType) : bool :=
  existsb (issubclass (type_of o)) classes.

(** Modelled from the spec: the tuples [six.string_types] and
    [six.integer_types] of [wxfserializer.utils.six], whose source is not
    part of the sources at hand; the spec names the two categories
    "textual string" and "integral number".  On Python 3 they are [(str,)]
    and [(int,)]. *)
Definition string_types : list PyType := [Tstr].
Definition integer_types : list PyType := [Tint].

(** [o is True], [o is False], [o is None]: identity with a singleton. *)
Definition is_True (o : PyObj) : bool :=
  match o with PyBool true => true | _ => false end.
Definition is_False (o : PyObj) : bool :=
  match o with PyBool false => true | _ => false end.
Definition is_None (o : PyObj) : bool :=
  match o with PyNone => true | _ => false end.

(** [len(o)], [iter(o)], [o.items()], [o.real] and [o.imag].  Every call
    site is guarded by the matching [isinstance] test, so the value given
    outside the guarded class is never observed. *)
Definition len (o : PyObj) : nat :=
  match o with
  | PyList l => length l
  | PyDict d => length d
  | _ => 0
  end.

Definition iter (o : PyObj) : list PyObj :=
  match o with PyList l => l | _ => [] end.

Definition items (o : PyObj) : list (PyObj * PyObj) :=
  match o with PyDict d => d | _ => [] end.

Definition real (o : PyObj) : PyObj :=
  match o with PyComplex re _ => PyFloat re | _ => o end.

Definition imag (o : PyObj) : PyObj :=
  match o with PyComplex _ im => PyFloat im | _ => o end.

(** ** Tokens *)

(** The token classes of [wxfserializer.wxfexpr], as constructors that keep
    the argument they are built from. *)
Inductive WXFExpr :=
  | WXFExprString (value : PyObj)
  | WXFExprInteger (value : PyObj)
  | WXFExprReal (value : PyObj)
  | WXFExprSymbol (name : string)
  | WXFExprFunction (length : nat)
  | WXFExprAssociation (length : nat)
  | WXFExprRule.

(** ** Exceptions *)

Inductive PyExc :=
  | NotEncodedException
  | NotImplementedError
  | AttributeError
  | UnsupportedTypeError (t : PyType)
  | OtherError (name : string).

(** ** Objects and the store *)

Definition loc := nat.

(** What the body of a user-written [encode] may do, after the example of
    the [serialize] docstring: yield a token, delegate a sub-value to the
    provider through [self.serialize], or raise. *)
Inductive Action :=
  | AYield (t : WXFExpr)
  | ASerialize (o : PyObj)
  | ARaise (e : PyExc).

Inductive EncoderClass :=
  | WXFEncoder
  | DefaultWXFEncoder
  | UserEncoder (body : PyObj → list Action).

(** An encoder instance: its class and its one slot, [_provider]. *)
Record EncoderObj := mkEncoder {
  enc_class : EncoderClass;
  _provider : option loc
}.

(** Modelled from the spec: the chain object ([WXFExprProvider], whose
    source is not part of the sources at hand) is "an ordered, append-only
    list of Encoders". *)
Record ProviderObj := mkProvider {
  encoders : list loc
}.

Record Heap := mkHeap {
  encoder_objs : gmap loc EncoderObj;
  provider_objs : gmap loc ProviderObj
}.

(** ** Generators

    A generator is run to exhaustion: the tokens it yields, in order, and
    the way it ends.  The store is threaded through the run; [None] is a
    run cut short by the recursion bound of [provide_wxfexpr] below. *)

Inductive Ending :=
  | Returned
  | Raised (e : PyExc).

Record Run := mkRun {
  tokens : list WXFExpr;
  ending : Ending
}.

Definition Gen := Heap → option (Run * Heap).

Definition skip : Gen := λ h, Some (mkRun [] Returned, h).
Definition yield (t : WXFExpr) : Gen := λ h, Some (mkRun [t] Returned, h).
Definition raise (e : PyExc) : Gen := λ h, Some (mkRun [] (Raised e), h).

(** Sequencing of two statements: an exception ends the run. *)
Definition gseq (g1 g2 : Gen) : Gen := λ h,
  match g1 h with
  | None => None
  | Some (r1, h1) =>
    match ending r1 with
    | Raised _ => Some (r1, h1)
    | Returned =>
      match g2 h1 with
      | None => None
      | Some (r2, h2) => Some (mkRun (tokens r1 ++ tokens r2) (ending r2), h2)
      end
    end
  end.

Declare Scope gen_scope.
Delimit Scope gen_scope with gen.
Notation "g1 ;; g2" := (gseq g1 g2)
  (at level 100, g2 at level 200, right associativity) : gen_scope.
Open Scope gen_scope.

(** [for x in l: body(x)] over a list. *)
Fixpoint for_each {A} (l : list A) (body : A → Gen) : Gen :=
  match l with
  | [] => skip
  | x :: l' => body x ;; for_each l' body
  end.

(** The end of a consumed generator, seen from the loop that consumes it. *)
Definition finish (e : Ending) : Gen :=
  match e with
  | Returned => skip
  | Raised x => raise x
  end.

(** [for x in g: body(x)] over a generator. *)
Definition for_in (g : Gen) (body : WXFExpr → Gen) : Gen := λ h,
  match g h with
  | None => None
  | Some (r, h1) => (for_each (tokens r) body ;; finish (ending r)) h1
  end.

(** ** The encoder classes *)

Section Encoders.

(** [provide_wxfexpr] of the provider the encoders are bound to. *)
Variable provide_wxfexpr : loc → PyObj → Gen.

(** [WXFEncoder.serialize]: the attribute lookup on an unset [_provider]
    fails with [AttributeError]. *)
Definition serialize (self : loc) (o : PyObj) : Gen := λ h,
  match encoder_objs h !! self with
  | None => raise AttributeError h
  | Some obj =>
    match _provider obj with
    | None => raise AttributeError h
    | Some p => for_in (provide_wxfexpr p o) (λ sub, yield sub) h
    end
  end.

(** [DefaultWXFEncoder.encode]. *)
Definition DefaultWXFEncoder_encode (self : loc) (pythonExpr : PyObj) : Gen :=
  if isinstance pythonExpr string_types then
    yield (WXFExprString pythonExpr)
  else if isinstance pythonExpr integer_types then
    yield (WXFExprInteger pythonExpr)
  else if isinstance pythonExpr [Tlist] then
    yield (WXFExprFunction (len pythonExpr)) ;;
    yield (WXFExprSymbol "List") ;;
    for_each (iter pythonExpr) (λ pyArg,
      for_in (serialize self pyArg) (λ wxf_expr, yield wxf_expr))
  else if isinstance pythonExpr [Tdict] then
    yield (WXFExprAssociation (len pythonExpr)) ;;
    for_each (items pythonExpr) (λ '(key, value),
      yield WXFExprRule ;;
      for_in (serialize self key) (λ wxf_expr, yield wxf_expr) ;;
      for_in (serialize self value) (λ wxf_expr, yield wxf_expr))
  else if is_True pythonExpr then
    yield (WXFExprSymbol "True")
  else if is_False pythonExpr then
    yield (WXFExprSymbol "False")
  else if is_None pythonExpr then
    yield (WXFExprSymbol "None")
  else if isinstance pythonExpr [Tfloat] then
    yield (WXFExprReal pythonExpr)
  else if isinstance pythonExpr [Tcomplex] then
    yield (WXFExprFunction 2) ;;
    yield (WXFExprSymbol "Complex") ;;
    yield (WXFExprReal (real pythonExpr)) ;;
    yield (WXFExprReal (imag pythonExpr))
  else
    skip.

(** The body of a user-written [encode]. *)
Definition run_action (self : loc) (a : Action) : Gen :=
  match a with
  | AYield t => yield t
  | ASerialize o => for_in (serialize self o) (λ sub, yield sub)
  | ARaise e => raise e
  end.

(** [self.encode(o)], resolved on the class of [self]; the method of the
    base class raises [NotImplementedError]. *)
Definition encode (self : loc) (o : PyObj) : Gen := λ h,
  match encoder_objs h !! self with
  | None => raise AttributeError h
  | Some obj =>
    match enc_class obj with
    | WXFEncoder => raise NotImplementedError h
    | DefaultWXFEncoder => DefaultWXFEncoder_encode self o h
    | UserEncoder body => for_each (body o) (run_action self) h
    end
  end.

(** The local [value] of [_encode] once the loop is over: [None] at
    first, then the last token yielded. *)
Definition last_value (ts : list WXFExpr) : option WXFExpr :=
  foldl (λ _ t, Some t) None ts.

(** [WXFEncoder._encode]. *)
Definition _encode (self : loc) (o : PyObj) : Gen := λ h,
  match encode self o h with
  | None => None
  | Some (r, h1) =>
    let value := last_value (tokens r) in
    (for_each (tokens r) (λ value, yield value) ;;
     finish (ending r) ;;
     if value is None then raise NotEncodedException else skip) h1
  end.

(** Modelled from the spec: the claim test of the chain of section 4.1
    ([WXFExprProvider], whose source is not part of the sources at hand):
    an attempt is unclaimed when it "yields nothing", which [_encode]
    reports by raising [NotEncodedException] before any token. *)
Definition declined (r : Run) : bool :=
  match tokens r, ending r with
  | [], Raised NotEncodedException => true
  | _, _ => false
  end.

(** Modelled from the spec: the loop of the chain of section 4.1, missing
    from the sources at hand.  The registered encoders are tried in order;
    an unclaimed attempt moves on to the next encoder, any other attempt
    is returned verbatim, and a value that no encoder claims fails with
    [UnsupportedTypeError] of its runtime type. *)
Fixpoint try_encoders (encs : list loc) (o : PyObj) : Gen := λ h,
  match encs with
  | [] => raise (UnsupportedTypeError (type_of o)) h
  | e :: rest =>
    match _encode e o h with
    | None => None
    | Some (r, h1) =>
      if declined r then try_encoders rest o h1 else Some (r, h1)
    end
  end.

(** Modelled from the spec: [provide_tokens] of section 4.1, the method
    [provide_wxfexpr] of the missing [WXFExprProvider], on the encoder list
    of the chain [p]. *)
Definition dispatch (p : loc) (o : PyObj) : Gen := λ h,
  match provider_objs h !! p with
  | None => raise AttributeError h
  | Some chain => try_encoders (encoders chain) o h
  end.

End Encoders.

(** Modelled from the spec: the re-entrant entry point of the missing
    [WXFExprProvider], section 4.1.  Every nested call consumes one unit of
    the recursion bound, as every nested Python call consumes a stack
    frame. *)
Fixpoint provide_wxfexpr (fuel : nat) (p : loc) (o : PyObj) : Gen :=
  match fuel with
  | 0 => λ _, None
  | S n => dispatch (provide_wxfexpr n) p o
  end.

(** The methods of an encoder bound into the chain, at a recursion bound. *)
Definition serialize_at (fuel : nat) := serialize (provide_wxfexpr fuel).
Definition encode_at (fuel : nat) := encode (provide_wxfexpr fuel).
Definition _encode_at (fuel : nat) := _encode (provide_wxfexpr fuel).

(** ** Assembling a chain *)

(** [WXFEncoder.__init__] on a fresh instance [self] of class [c]: the new
    instance has no provider. *)
Definition WXFEncoder_init (self : loc) (c : EncoderClass) (h : Heap) : Heap :=
  mkHeap (<[self := mkEncoder c None]> (encoder_objs h)) (provider_objs h).

(** Modelled from the spec: the positions of [register(encoder, position)],
    section 6, of the missing [WXFExprProvider]. *)
Inductive Position := Append | Prepend.

(** Modelled from the spec: a new chain of the missing [WXFExprProvider],
    with no encoder yet. *)
Definition WXFExprProvider_init (p : loc) (h : Heap) : Heap :=
  mkHeap (encoder_objs h) (<[p := mkProvider []]> (provider_objs h)).

(** Modelled from the spec: [register(encoder, position)] of section 4.1,
    missing from the sources at hand, which "appends (or prepends) to the
    ordered list and binds the Chain as the encoder's delegation
    target". *)
Definition register (p e : loc) (pos : Position) (h : Heap) : Heap :=
  match provider_objs h !! p, encoder_objs h !! e with
  | Some chain, Some obj =>
    mkHeap
      (<[e := mkEncoder (enc_class obj) (Some p)]> (encoder_objs h))
      (<[p := mkProvider match pos with
                         | Append => encoders chain ++ [e]
                         | Prepend => e :: encoders chain
                         end]> (provider_objs h))
  | _, _ => h
  end.

Definition empty_heap : Heap := mkHeap ∅ ∅.

(** The customary configuration: the chain at address 0 with one default
    encoder, at address 1. *)
Definition default_chain : Heap :=
  register 0 1 Append
    (WXFEncoder_init 1 DefaultWXFEncoder
      (WXFExprProvider_init 0 empty_heap)).

(** The user encoder of the [serialize] docstring: an instance of class
    [foo] goes out as a function with head [foo] whose one argument, a
    [dict], is handed back to the chain. *)
Definition foo_encoder : EncoderClass :=
  UserEncoder (λ o,
    match o with
    | PyOther c =>
      if String.eqb c "foo" then
        [AYield (WXFExprFunction 1);
         AYield (WXFExprSymbol "foo");
         ASerialize (PyDict [(PyStr "k1", PyInt 1); (PyStr "k2", PyInt 2)])]
      else []
    | _ => []
    end).

(** The customary chain with the [foo] encoder, at address 2, ahead of
    the default encoder. *)
Definition foo_chain : Heap :=
  register 0 2 Prepend (WXFEncoder_init 2 foo_encoder default_chain).

(** The stream of the [foo] example. *)
Definition foo_tokens : list WXFExpr :=
  [WXFExprFunction 1; WXFExprSymbol "foo"; WXFExprAssociation 2;
   WXFExprRule; WXFExprString (PyStr "k1"); WXFExprInteger (PyInt 1);
   WXFExprRule; WXFExprString (PyStr "k2"); WXFExprInteger (PyInt 2)].

(** A nested value with a list, a mapping and a complex number, and the
    stream of its encoding. *)
Definition nested_value : PyObj :=
  PyList [PyInt 1;
          PyDict [(PyStr "k", PyComplex (S754_finite false 3 (-1)) (S754_zero false))]].

Definition nested_tokens : list WXFExpr :=
  [WXFExprFunction 2; WXFExprSymbol "List"; WXFExprInteger (PyInt 1);
   WXFExprAssociation 1; WXFExprRule; WXFExprString (PyStr "k");
   WXFExprFunction 2; WXFExprSymbol "Complex";
   WXFExprReal (PyFloat (S754_finite false 3 (-1)));
   WXFExprReal (PyFloat (S754_zero false))].

(** ** Well-formed token streams *)

Definition is_leaf (t : WXFExpr) : bool :=
  match t with
  | WXFExprString _ | WXFExprInteger _ | WXFExprReal _ | WXFExprSymbol _ => true
  | WXFExprFunction _ | WXFExprAssociation _ | WXFExprRule => false
  end.

(** [Subtree ts]: [ts] is one complete subtree in depth-first pre-order.
    [Subtrees n ts]: [ts] is [n] complete subtrees, one after the other.
    [RulePairs n ts]: [ts] is [n] rule pairs, each a rule marker followed
    by two complete subtrees. *)
Inductive Subtree : list WXFExpr → Prop :=
  | Subtree_leaf t :
      is_leaf t = true → Subtree [t]
  | Subtree_function n ts :
      Subtrees (S n) ts → Subtree (WXFExprFunction n :: ts)
  | Subtree_association n ts :
      RulePairs n ts → Subtree (WXFExprAssociation n :: ts)
with Subtrees : nat → list WXFExpr → Prop :=
  | Subtrees_nil : Subtrees 0 []
  | Subtrees_cons n t ts :
      Subtree t → Subtrees n ts → Subtrees (S n) (t ++ ts)
with RulePairs : nat → list WXFExpr → Prop :=
  | RulePairs_nil : RulePairs 0 []
  | RulePairs_cons n k v ts :
      Subtree k → Subtree v → RulePairs n ts →
      RulePairs (S n) (WXFExprRule :: k ++ v ++ ts).

Scheme Subtree_mut := Minimality for Subtree Sort Prop
with Subtrees_mut := Minimality for Subtrees Sort Prop
with RulePairs_mut := Minimality for RulePairs Sort Prop.

Combined Scheme Subtree_mutind from Subtree_mut, Subtrees_mut, RulePairs_mut.

(** An executable reading of the same law: [parse fuel need ts] consumes
    [need] complete subtrees from the front of [ts] and returns what is
    left over.  A rule marker is accepted only as a child of an
    association header. *)
Fixpoint parse (fuel : nat) (need : nat) (ts : list WXFExpr) : option (list WXFExpr) :=
  match fuel with
  | 0 => None
  | S fuel' =>
    match need with
    | 0 => Some ts
    | S need' =>
      match ts with
      | [] => None
      | WXFExprFunction n :: rest =>
        rest' ← parse fuel' (S n) rest; parse fuel' need' rest'
      | WXFExprAssociation n :: rest =>
        rest' ← parse_rules fuel' n rest; parse fuel' need' rest'
      | WXFExprRule :: _ => None
      | _ :: rest => parse fuel' need' rest
      end
    end
  end
with parse_rules (fuel : nat) (need : nat) (ts : list WXFExpr) : option (list WXFExpr) :=
  match fuel with
  | 0 => None
  | S fuel' =>
    match need with
    | 0 => Some ts
    | S need' =>
      match ts with
      | WXFExprRule :: rest =>
        rest' ← parse fuel' 2 rest; parse_rules fuel' need' rest'
      | _ => None
      end
    end
  end.

(** ** Auxiliary notions for the proofs *)

(** Nesting depth of a value. *)
Fixpoint depth (o : PyObj) : nat :=
  match o with
  | PyList l => S (foldr (λ x d, depth x `max` d) 0 l)
  | PyDict d => S (foldr (λ kv m, (depth kv.1 `max` depth kv.2) `max` m) 0 d)
  | _ => 0
  end.

(** The eight category tests of the default encoder, taken together. *)
Definition claims (o : PyObj) : bool :=
  isinstance o string_types || isinstance o integer_types ||
  isinstance o [Tlist] || isinstance o [Tdict] ||
  is_True o || is_False o || is_None o ||
  isinstance o [Tfloat] || isinstance o [Tcomplex].

(** What [_encode] makes of a run of [encode]. *)
Definition wrap (r : Run) : Run :=
  match tokens r, ending r with
  | [], Returned => mkRun [] (Raised NotEncodedException)
  | _, _ => r
  end.

(** A Hoare triple for generators: from a store satisfying [I], a run of
    [g] ends in a store satisfying [I], and, when it returns, its tokens
    satisfy [Q]. *)
Definition gen_post (I : Heap → Prop) (Q : list WXFExpr → Prop) (g : Gen) : Prop :=
  ∀ h r h', I h → g h = Some (r, h') →
    I h' ∧ (ending r = Returned → Q (tokens r)).

(** A run of [g] leaves the store as it was. *)
Definition pure (g : Gen) : Prop := ∀ h r h', g h = Some (r, h') → h' = h.

(** [g2] does whatever [g1] does, wherever [g1] is not cut short. *)
Definition refines (g1 g2 : Gen) : Prop :=
  ∀ h x, g1 h = Some x → g2 h = Some x.

(** The encoder [e] is bound to the chain [p]. *)
Definition bound (h : Heap) (e p : loc) : Prop :=
  ∃ obj, encoder_objs h !! e = Some obj ∧ _provider obj = Some p.

(** The chain [p] holds the default encoder [e] and nothing else. *)
Definition default_only (h : Heap) (p e : loc) : Prop :=
  provider_objs h !! p = Some (mkProvider [e]) ∧
  encoder_objs h !! e = Some (mkEncoder DefaultWXFEncoder (Some p)).

(** A series of independent top-level encode calls on one chain. *)
Fixpoint encode_calls (fuel : nat) (p : loc) (vs : list PyObj) (h : Heap)
  : option (list Run * Heap) :=
  match vs with
  | [] => Some ([], h)
  | v :: vs' =>
    match provide_wxfexpr fuel p v h with
    | None => None
    | Some (r, h1) =>
      match encode_calls fuel p vs' h1 with
      | None => None
      | Some (rs, h2) => Some (r :: rs, h2)
      end
    end
  end.

(** ** What the default encoder emits on its own *)

(** The first token by the class of the value. *)
Definition first_token (o : PyObj) : option WXFExpr :=
  match o with
  | PyStr _ => Some (WXFExprString o)
  | PyInt _ | PyBool _ => Some (WXFExprInteger o)
  | PyList l => Some (WXFExprFunction (length l))
  | PyDict d => Some (WXFExprAssociation (length d))
  | PyNone => Some (WXFExprSymbol "None")
  | PyFloat _ => Some (WXFExprReal o)
  | PyComplex _ _ => Some (WXFExprFunction 2)
  | PyOther _ => None
  end.

(** A value with nothing to hand to [serialize]: no list or mapping with
    an element. *)
Definition childless (o : PyObj) : bool :=
  match o with
  | PyList (_ :: _) | PyDict (_ :: _) => false
  | _ => true
  end.

(** Two runs one after the other, as [gseq] joins them. *)
Definition run_then (r1 r2 : Run) : Run :=
  match ending r1 with
  | Raised _ => r1
  | Returned => mkRun (tokens r1 ++ tokens r2) (ending r2)
  end.

(** The stream of a value written as a recursive function, for comparison
    with the generators: depth first, left to right, up to the first value
    of a class outside the eight categories. *)
Fixpoint expected_run (o : PyObj) : Run :=
  match o with
  | PyList l =>
    run_then (mkRun [WXFExprFunction (length l); WXFExprSymbol "List"] Returned)
      (foldr (λ x acc, run_then (expected_run x) acc) (mkRun [] Returned) l)
  | PyDict d =>
    run_then (mkRun [WXFExprAssociation (length d)] Returned)
      (foldr (λ kv acc,
                run_then
                  (run_then (mkRun [WXFExprRule] Returned)
                     (run_then (expected_run kv.1) (expected_run kv.2)))
                  acc)
             (mkRun [] Returned) d)
  | PyComplex re im =>
    mkRun [WXFExprFunction 2; WXFExprSymbol "Complex";
           WXFExprReal (PyFloat re); WXFExprReal (PyFloat im)] Returned
  | PyOther c => mkRun [] (Raised (UnsupportedTypeError (Tother c)))
  | _ => mkRun (option_list (first_token o)) Returned
  end.

(** ** The client exceptions of [wolframclient/exception.py] *)

(** The outcome of a call: a value, or an exception named by its class. *)
Inductive Call (A : Type) :=
  | Return (a : A)
  | Raise (exception : string).
Arguments Return {A} a.
Arguments Raise {A} exception.

(** Truth value of an optional string argument: [None] and the empty
    string are false. *)
Definition truthy (s : option string) : bool :=
  match s with
  | None | Some EmptyString => false
  | Some _ => true
  end.

(** [a or b] on strings. *)
Definition py_or (a b : string) : string :=
  if truthy (Some a) then a else b.

(** [try: body except name: handler].  [catches] is what the handler's
    name evaluates to when an exception reaches it: the test for the
    classes it covers, or [None] when the name is bound nowhere, in which
    case the lookup itself fails with [NameError]. *)
Definition try_except {A} (body : Call A) (catches : option (string → bool))
    (handler : Call A) : Call A :=
  match body with
  | Return a => Return a
  | Raise e =>
    match catches with
    | None => Raise "NameError"
    | Some covers => if covers e then handler else Raise e
    end
  end.

(** The response handed to [RequestException]; its class is not part of
    this module, so it is kept as what its two methods give: [status()]
    as formatted by [%s], and [text()], which may raise. *)
Record Response := mkResponse {
  status : string;
  text : Call string
}.

Record RequestExceptionObj := mkRequestException {
  response : Response;
  msg : string
}.

(** [RequestException.__init__].  The handler names [UnicodeDecodeErrors],
    which neither the module nor the built-ins bind. *)
Definition RequestException_init (response : Response) (msg : option string)
  : Call RequestExceptionObj :=
  if truthy msg then
    Return (mkRequestException response (default "" msg))
  else
    match try_except (text response) None (Return "Failed to decode request body.") with
    | Return m => Return (mkRequestException response m)
    | Raise e => Raise e
    end.

(** [RequestException.__str__]. *)
Definition RequestException_str (self : RequestExceptionObj) : string :=
  "<" +:+ status (response self) +:+ ">: " +:+ py_or (msg self) "".





(** * Properties *)

(** ** Runs of the basic statements *)

Lemma gseq_returned (g1 g2 : Gen) h ts h1 :
  g1 h = Some (mkRun ts Returned, h1) →
  (g1 ;; g2) h =
    match g2 h1 with
    | None => None
    | Some (r2, h2) => Some (mkRun (ts ++ tokens r2) (ending r2), h2)
    end.
Proof. intros H. unfold gseq. by rewrite H. Qed.

Lemma gseq_yield t (g : Gen) h :
  (yield t ;; g) h =
    match g h with
    | None => None
    | Some (r, h') => Some (mkRun (t :: tokens r) (ending r), h')
    end.
Proof. reflexivity. Qed.

Lemma for_each_yield ts h :
  for_each ts yield h = Some (mkRun ts Returned, h).
Proof.
  induction ts as [|t ts IH]; [done|].
  cbn [for_each]. rewrite gseq_yield, IH. done.
Qed.

(** Re-yielding every token of a generator is that generator. *)
Lemma for_in_yield (g : Gen) h : for_in g yield h = g h.
Proof.
  unfold for_in. destruct (g h) as [[[ts e] h1]|]; [|done].
  cbn [tokens ending]. rewrite (gseq_returned _ _ _ ts h1) by apply for_each_yield.
  destruct e; cbn; by rewrite app_nil_r.
Qed.

Lemma for_each_ext {A} (l : list A) (f g : A → Gen) h :
  (∀ x h', f x h' = g x h') → for_each l f h = for_each l g h.
Proof.
  intros Hfg. revert h. induction l as [|x l IH]; intros h; [done|].
  cbn [for_each]. unfold gseq. rewrite Hfg.
  destruct (g x h) as [[r1 h1]|]; [|done].
  destruct (ending r1); [|done]. by rewrite IH.
Qed.

Lemma gseq_ext (f f' g g' : Gen) h :
  (∀ h', f h' = f' h') → (∀ h', g h' = g' h') → (f ;; g) h = (f' ;; g') h.
Proof. intros Hf Hg. unfold gseq. rewrite Hf. destruct (f' h) as [[? ?]|]; [|done]. by rewrite Hg. Qed.

Lemma last_value_snoc ts t : last_value (ts ++ [t]) = Some t.
Proof. unfold last_value. by rewrite foldl_app. Qed.

Lemma last_value_nil_iff ts : last_value ts = None ↔ ts = [].
Proof.
  split; [|by intros ->].
  destruct ts as [|t ts] using rev_ind; [done|].
  by rewrite last_value_snoc.
Qed.

(** ** The methods of [WXFEncoder] *)

Lemma serialize_bound P self o h obj p :
  encoder_objs h !! self = Some obj → _provider obj = Some p →
  serialize P self o h = P p o h.
Proof. intros H1 H2. unfold serialize. rewrite H1, H2. apply for_in_yield. Qed.

Lemma serialize_unbound P self o h obj :
  encoder_objs h !! self = Some obj → _provider obj = None →
  serialize P self o h = Some (mkRun [] (Raised AttributeError), h).
Proof. intros H1 H2. unfold serialize. by rewrite H1, H2. Qed.

Lemma _encode_wrap P self o h :
  _encode P self o h =
    match encode P self o h with
    | None => None
    | Some (r, h1) => Some (wrap r, h1)
    end.
Proof.
  unfold _encode. destruct (encode P self o h) as [[[ts e] h1]|]; [|done].
  cbn [tokens ending]. rewrite (gseq_returned _ _ _ ts h1) by apply for_each_yield.
  unfold wrap. cbn [tokens ending]. destruct e as [|e]; cbn.
  - destruct (last_value ts) eqn:Hl; cbn.
    + rewrite !app_nil_r. destruct ts; [done|done].
    + apply last_value_nil_iff in Hl as ->. done.
  - rewrite app_nil_r. by destruct ts.
Qed.

(** ** Hoare rules for generators *)

Lemma gen_post_skip I (Q : list WXFExpr → Prop) : Q [] → gen_post I Q skip.
Proof. intros HQ h r h' Hi [= <- <-]. auto. Qed.

Lemma gen_post_yield I (Q : list WXFExpr → Prop) t : Q [t] → gen_post I Q (yield t).
Proof. intros HQ h r h' Hi [= <- <-]. auto. Qed.

Lemma gen_post_raise I Q e : gen_post I Q (raise e).
Proof. intros h r h' Hi [= <- <-]. split; [done|]. discriminate. Qed.

Lemma gen_post_seq I (Q1 Q2 Q : list WXFExpr → Prop) g1 g2 :
  gen_post I Q1 g1 → gen_post I Q2 g2 →
  (∀ a b, Q1 a → Q2 b → Q (a ++ b)) →
  gen_post I Q (g1 ;; g2).
Proof.
  intros H1 H2 HQ h r h' Hi. unfold gseq.
  destruct (g1 h) as [[r1 h1]|] eqn:E1; [|done].
  destruct (H1 _ _ _ Hi E1) as [Hi1 Hq1].
  destruct (ending r1) eqn:Ee.
  - destruct (g2 h1) as [[r2 h2]|] eqn:E2; [|done].
    intros [= <- <-]. destruct (H2 _ _ _ Hi1 E2) as [Hi2 Hq2].
    split; [done|]. cbn. auto.
  - intros [= <- <-]. split; [done|]. congruence.
Qed.

(** A loop yields the concatenation of what its rounds yield: [R n] is
    the law of [n] rounds. *)
Lemma gen_post_for_each {A} I (Q1 : list WXFExpr → Prop) (R : nat → list WXFExpr → Prop)
    (l : list A) (body : A → Gen) :
  R 0 [] →
  (∀ n a b, Q1 a → R n b → R (S n) (a ++ b)) →
  (∀ x, x ∈ l → gen_post I Q1 (body x)) →
  gen_post I (R (length l)) (for_each l body).
Proof.
  intros H0 HS. induction l as [|x l IH]; intros Hb.
  - by apply gen_post_skip.
  - cbn [for_each length]. eapply gen_post_seq.
    + apply Hb. left.
    + apply IH. intros y Hy. apply Hb. by right.
    + intros a b Ha Hr. by apply HS.
Qed.

Lemma gen_post_ext I Q (g g' : Gen) :
  (∀ h, g h = g' h) → gen_post I Q g' → gen_post I Q g.
Proof. intros E Hg h r h' Hi Hrun. rewrite E in Hrun. eauto. Qed.

Lemma gen_post_serialize I Q P self o :
  (∀ p, gen_post I Q (P p o)) → gen_post I Q (serialize P self o).
Proof.
  intros HP h r h' Hi. unfold serialize.
  destruct (encoder_objs h !! self) as [obj|]; [|by apply gen_post_raise].
  destruct (_provider obj) as [p|]; [|by apply gen_post_raise].
  rewrite for_in_yield. by apply HP.
Qed.

(** ** Runs that leave the store as it was *)

Lemma pure_skip : pure skip.
Proof. by intros h r h' [= _ <-]. Qed.

Lemma pure_yield t : pure (yield t).
Proof. by intros h r h' [= _ <-]. Qed.

Lemma pure_raise e : pure (raise e).
Proof. by intros h r h' [= _ <-]. Qed.

Lemma pure_finish e : pure (finish e).
Proof. destruct e; [apply pure_skip|apply pure_raise]. Qed.

Lemma pure_seq g1 g2 : pure g1 → pure g2 → pure (g1 ;; g2).
Proof.
  intros H1 H2 h r h'. unfold gseq.
  destruct (g1 h) as [[r1 h1]|] eqn:E1; [|done].
  apply H1 in E1 as ->.
  destruct (ending r1).
  - destruct (g2 h) as [[r2 h2]|] eqn:E2; [|done].
    apply H2 in E2 as ->. by intros [= _ <-].
  - by intros [= _ <-].
Qed.

Lemma pure_for_each {A} (l : list A) (body : A → Gen) :
  (∀ x, pure (body x)) → pure (for_each l body).
Proof.
  intros Hb. induction l as [|x l IH]; [apply pure_skip|].
  cbn [for_each]. by apply pure_seq.
Qed.

Lemma pure_ext (g g' : Gen) : (∀ h, g h = g' h) → pure g' → pure g.
Proof. intros E Hg h r h' Hrun. rewrite E in Hrun. eauto. Qed.

Lemma pure_forward (g : Gen) : pure g → pure (for_in g (λ t, yield t)).
Proof. apply pure_ext, for_in_yield. Qed.

Create HintDb pure_db.
#[local] Hint Resolve pure_skip pure_yield pure_raise pure_finish pure_seq
  pure_for_each pure_forward : pure_db.

Lemma pure_serialize P self o :
  (∀ p, pure (P p o)) → pure (serialize P self o).
Proof.
  intros HP h r h'. unfold serialize.
  destruct (encoder_objs h !! self) as [obj|]; [|apply pure_raise].
  destruct (_provider obj) as [p|]; [|apply pure_raise].
  rewrite for_in_yield. apply HP.
Qed.

Lemma pure_DefaultWXFEncoder_encode P self o :
  (∀ p v, pure (P p v)) → pure (DefaultWXFEncoder_encode P self o).
Proof.
  intros HP. unfold DefaultWXFEncoder_encode.
  repeat case_match; subst;
    repeat first
      [ apply pure_seq | apply pure_yield | apply pure_skip
      | apply pure_for_each; intros | apply pure_forward
      | apply pure_serialize; intros; apply HP
      | match goal with |- pure (let '(_, _) := ?x in _) => destruct x end ].
Qed.

Lemma pure_run_action P self a :
  (∀ p v, pure (P p v)) → pure (run_action P self a).
Proof.
  intros HP. destruct a; cbn; auto with pure_db.
  apply pure_forward, pure_serialize. intros; apply HP.
Qed.

Lemma pure_encode P self o :
  (∀ p v, pure (P p v)) → pure (encode P self o).
Proof.
  intros HP h r h'. unfold encode.
  destruct (encoder_objs h !! self) as [obj|]; [|apply pure_raise].
  destruct (enc_class obj) as [| |body].
  - apply pure_raise.
  - by apply pure_DefaultWXFEncoder_encode.
  - apply pure_for_each. intros a. by apply pure_run_action.
Qed.

Lemma pure__encode P self o :
  (∀ p v, pure (P p v)) → pure (_encode P self o).
Proof.
  intros HP h r h'. rewrite _encode_wrap.
  destruct (encode P self o h) as [[r1 h1]|] eqn:E; [|done].
  apply pure_encode in E as ->; [|done]. by intros [= _ <-].
Qed.

Lemma pure_try_encoders P encs o :
  (∀ p v, pure (P p v)) → pure (try_encoders P encs o).
Proof.
  intros HP. induction encs as [|e encs IH]; intros h r h'; cbn [try_encoders].
  - apply pure_raise.
  - destruct (_encode P e o h) as [[r1 h1]|] eqn:E; [|done].
    apply pure__encode in E as ->; [|done].
    destruct (declined r1); [apply IH|by intros [= _ <-]].
Qed.

Lemma pure_dispatch P p o :
  (∀ q v, pure (P q v)) → pure (dispatch P p o).
Proof.
  intros HP h r h'. unfold dispatch.
  destruct (provider_objs h !! p); [by apply pure_try_encoders|apply pure_raise].
Qed.

Lemma pure_provide_wxfexpr n p o : pure (provide_wxfexpr n p o).
Proof.
  revert p o. induction n as [|n IH]; intros p o; [done|].
  cbn [provide_wxfexpr]. by apply pure_dispatch.
Qed.

(** ** A larger recursion bound changes no completed run *)

Lemma refines_refl g : refines g g.
Proof. by intros h x. Qed.

Lemma refines_seq g1 g1' g2 g2' :
  refines g1 g1' → refines g2 g2' → refines (g1 ;; g2) (g1' ;; g2').
Proof.
  intros H1 H2 h x. unfold gseq.
  destruct (g1 h) as [[r1 h1]|] eqn:E1; [|done].
  rewrite (H1 _ _ E1). destruct (ending r1); [|done].
  destruct (g2 h1) as [[r2 h2]|] eqn:E2; [|done].
  by rewrite (H2 _ _ E2).
Qed.

Lemma refines_for_each {A} (l : list A) (f g : A → Gen) :
  (∀ x, refines (f x) (g x)) → refines (for_each l f) (for_each l g).
Proof.
  intros H. induction l as [|x l IH]; [apply refines_refl|].
  cbn [for_each]. by apply refines_seq.
Qed.

Lemma refines_forward (g g' : Gen) :
  refines g g' → refines (for_in g (λ t, yield t)) (for_in g' (λ t, yield t)).
Proof. intros H h x. rewrite !for_in_yield. apply H. Qed.

Lemma refines_serialize P P' self o :
  (∀ p, refines (P p o) (P' p o)) → refines (serialize P self o) (serialize P' self o).
Proof.
  intros HP h x. unfold serialize.
  destruct (encoder_objs h !! self) as [obj|]; [|done].
  destruct (_provider obj) as [p|]; [|done].
  by apply refines_forward.
Qed.

Lemma refines_DefaultWXFEncoder_encode P P' self o :
  (∀ p v, refines (P p v) (P' p v)) →
  refines (DefaultWXFEncoder_encode P self o) (DefaultWXFEncoder_encode P' self o).
Proof.
  intros HP. unfold DefaultWXFEncoder_encode.
  repeat case_match; subst; try apply refines_refl;
    repeat first
      [ apply refines_seq; [apply refines_refl|]
      | apply refines_for_each; intros
      | match goal with |- refines (let '(_, _) := ?x in _) _ => destruct x end
      | apply refines_seq
      | apply refines_forward
      | apply refines_serialize; intros; apply HP ].
Qed.

Lemma refines_run_action P P' self a :
  (∀ p v, refines (P p v) (P' p v)) →
  refines (run_action P self a) (run_action P' self a).
Proof.
  intros HP. destruct a; cbn; try apply refines_refl.
  apply refines_forward, refines_serialize. intros; apply HP.
Qed.

Lemma refines_encode P P' self o :
  (∀ p v, refines (P p v) (P' p v)) → refines (encode P self o) (encode P' self o).
Proof.
  intros HP h x. unfold encode.
  destruct (encoder_objs h !! self) as [obj|]; [|done].
  destruct (enc_class obj) as [| |body]; [done| |].
  - by apply refines_DefaultWXFEncoder_encode.
  - apply refines_for_each. intros a. by apply refines_run_action.
Qed.

Lemma refines__encode P P' self o :
  (∀ p v, refines (P p v) (P' p v)) → refines (_encode P self o) (_encode P' self o).
Proof.
  intros HP h x. rewrite !_encode_wrap.
  destruct (encode P self o h) as [[r1 h1]|] eqn:E; [|done].
  by rewrite (refines_encode P P' self o HP _ _ E).
Qed.

Lemma refines_try_encoders P P' encs o :
  (∀ p v, refines (P p v) (P' p v)) →
  refines (try_encoders P encs o) (try_encoders P' encs o).
Proof.
  intros HP. induction encs as [|e encs IH]; intros h x; cbn [try_encoders]; [done|].
  destruct (_encode P e o h) as [[r1 h1]|] eqn:E; [|done].
  rewrite (refines__encode P P' e o HP _ _ E).
  destruct (declined r1); [apply IH|done].
Qed.

Lemma refines_dispatch P P' p o :
  (∀ q v, refines (P q v) (P' q v)) → refines (dispatch P p o) (dispatch P' p o).
Proof.
  intros HP h x. unfold dispatch.
  destruct (provider_objs h !! p); [by apply refines_try_encoders|done].
Qed.

Lemma provide_wxfexpr_step n p o :
  refines (provide_wxfexpr n p o) (provide_wxfexpr (S n) p o).
Proof.
  revert p o. induction n as [|n IH]; intros p o; [done|].
  change (refines (dispatch (provide_wxfexpr n) p o)
                  (dispatch (provide_wxfexpr (S n)) p o)).
  by apply refines_dispatch.
Qed.

Lemma provide_wxfexpr_mono n m p o :
  n ≤ m → refines (provide_wxfexpr n p o) (provide_wxfexpr m p o).
Proof.
  induction 1 as [|m _ IH]; [apply refines_refl|].
  intros h x Hx. by apply provide_wxfexpr_step, IH.
Qed.

(** Two completed runs from one store agree, whatever their bounds. *)
Lemma provide_wxfexpr_agree n m p o h x y :
  provide_wxfexpr n p o h = Some x → provide_wxfexpr m p o h = Some y → x = y.
Proof.
  intros Hx Hy.
  pose proof (provide_wxfexpr_mono n (n `max` m) p o (Nat.le_max_l _ _) _ _ Hx) as Hx'.
  pose proof (provide_wxfexpr_mono m (n `max` m) p o (Nat.le_max_r _ _) _ _ Hy) as Hy'.
  congruence.
Qed.

(** ** The default encoder on containers *)

#[local] Arguments gseq : simpl never.
#[local] Arguments for_in : simpl never.

Lemma DefaultWXFEncoder_encode_list P self l h :
  DefaultWXFEncoder_encode P self (PyList l) h =
  (yield (WXFExprFunction (length l)) ;;
   yield (WXFExprSymbol "List") ;;
   for_each l (serialize P self)) h.
Proof.
  cbn. apply gseq_ext; [done|]. intros h1. apply gseq_ext; [done|]. intros h2.
  apply for_each_ext. intros x h3. apply for_in_yield.
Qed.

Lemma DefaultWXFEncoder_encode_dict P self d h :
  DefaultWXFEncoder_encode P self (PyDict d) h =
  (yield (WXFExprAssociation (length d)) ;;
   for_each d (λ kv, yield WXFExprRule ;;
                     serialize P self kv.1 ;; serialize P self kv.2)) h.
Proof.
  cbn. apply gseq_ext; [done|]. intros h1.
  apply for_each_ext. intros [k v] h2. cbn [fst snd].
  apply gseq_ext; [done|]. intros h3.
  apply gseq_ext; intros h4; apply for_in_yield.
Qed.

(** In a loop of pure rounds only the rounds at the initial store matter. *)
Lemma for_each_pure_ext {A} (l : list A) (f g : A → Gen) h :
  (∀ x, x ∈ l → pure (g x)) → (∀ x, x ∈ l → f x h = g x h) →
  for_each l f h = for_each l g h.
Proof.
  intros Hp Hfg. induction l as [|x l IH]; [done|].
  cbn [for_each]. unfold gseq. rewrite Hfg by left.
  destruct (g x h) as [[r1 h1]|] eqn:E; [|done].
  apply Hp in E as ->; [|left].
  destruct (ending r1); [|done].
  rewrite IH; [done| |]; intros y Hy; [apply Hp|apply Hfg]; by right.
Qed.

(** A loop whose rounds all return yields their tokens end to end. *)
Lemma for_each_returned {A} (l : list A) (g : A → Gen) tss h :
  Forall2 (λ x ts, g x h = Some (mkRun ts Returned, h)) l tss →
  for_each l g h = Some (mkRun (concat tss) Returned, h).
Proof.
  induction 1 as [|x ts l tss Hx _ IH]; [done|].
  cbn [for_each concat]. rewrite (gseq_returned _ _ _ _ _ Hx), IH. done.
Qed.

Lemma for_each_total {A} (l : list A) (g : A → Gen) h :
  (∀ x, x ∈ l → pure (g x)) → (∀ x, x ∈ l → is_Some (g x h)) →
  ∃ r, for_each l g h = Some (r, h).
Proof.
  intros Hp Ht. induction l as [|x l IH]; [by eexists|].
  cbn [for_each]. unfold gseq.
  destruct (Ht x) as [[r1 h1] E]; [left|]. rewrite E.
  apply Hp in E as ->; [|left].
  destruct (ending r1); [|by eexists].
  destruct IH as [r2 ->]; [| |by eexists]; intros y Hy; [apply Hp|apply Ht]; by right.
Qed.

(** ** Depth of values *)

Lemma depth_list_elem x l : x ∈ l → depth x < depth (PyList l).
Proof.
  cbn [depth]. induction 1 as [x l|x y l _ IH]; cbn [foldr]; lia.
Qed.

Lemma depth_dict_entry k v d :
  (k, v) ∈ d → depth k < depth (PyDict d) ∧ depth v < depth (PyDict d).
Proof.
  cbn [depth]. induction d as [|[k' v'] d IH]; intros Hin.
  - by apply elem_of_nil in Hin.
  - cbn [foldr fst snd]. apply elem_of_cons in Hin as [[= <- <-]|Hin]; [lia|].
    specialize (IH Hin). lia.
Qed.

(** ** Arity of the default encoder's streams *)

Lemma Subtrees_one t : is_leaf t = true → ∀ n ts, Subtrees n ts → Subtrees (S n) (t :: ts).
Proof. intros Ht n ts Hts. apply (Subtrees_cons n [t] ts); [by apply Subtree_leaf|done]. Qed.

(** Whatever the provider, if the sub-values handed to [serialize] come
    back as complete subtrees, the default encoder emits one complete
    subtree for every value it claims. *)
Lemma DefaultWXFEncoder_encode_subtree I P self o :
  (∀ v, gen_post I Subtree (serialize P self v)) →
  gen_post I (λ ts, ts ≠ [] → Subtree ts) (DefaultWXFEncoder_encode P self o).
Proof.
  intros HP.
  destruct o as [s|z|b|l|d| |x|re im|c];
    try (cbn; apply gen_post_yield; intros _; by apply Subtree_leaf).
  - eapply gen_post_ext; [apply DefaultWXFEncoder_encode_list|].
    eapply (gen_post_seq _ (eq [WXFExprFunction (length l)]) (Subtrees (S (length l)))).
    + by apply gen_post_yield.
    + eapply (gen_post_seq _ Subtree (Subtrees (length l))).
      * apply gen_post_yield. by apply Subtree_leaf.
      * apply (gen_post_for_each _ Subtree Subtrees);
          [constructor|by constructor|]. intros x _. apply HP.
      * intros a b Ha Hb. by constructor.
    + intros a b <- Hb _. by constructor.
  - eapply gen_post_ext; [apply DefaultWXFEncoder_encode_dict|].
    eapply (gen_post_seq _ (eq [WXFExprAssociation (length d)]) (RulePairs (length d))).
    + by apply gen_post_yield.
    + apply (gen_post_for_each _
        (λ ts, ∃ k v, Subtree k ∧ Subtree v ∧ ts = WXFExprRule :: k ++ v));
        [constructor| |].
      * intros n a b (k & v & Hk & Hv & ->) Hb.
        rewrite <- app_comm_cons, <- app_assoc. by constructor.
      * intros [k v] _. cbn [fst snd].
        eapply (gen_post_seq _ (eq [WXFExprRule])
                  (λ ts, ∃ k v, Subtree k ∧ Subtree v ∧ ts = k ++ v)).
        -- by apply gen_post_yield.
        -- eapply (gen_post_seq _ Subtree Subtree); [apply HP|apply HP|].
           intros a b Ha Hb. by exists a, b.
        -- intros a b <- (k' & v' & Hk & Hv & ->). by exists k', v'.
    + intros a b <- Hb _. by constructor.
  - cbn. intros h r h' Hi [= <- <-]. split; [done|]. intros _ _.
    apply Subtree_function. repeat (apply Subtrees_one; [done|]). constructor.
  - cbn. apply gen_post_skip. done.
Qed.

(** ** The chain that holds the default encoder alone *)

Lemma provide_wxfexpr_default_only n h p e o :
  default_only h p e →
  provide_wxfexpr (S n) p o h =
    match DefaultWXFEncoder_encode (provide_wxfexpr n) e o h with
    | None => None
    | Some (r, h1) =>
      if declined (wrap r) then raise (UnsupportedTypeError (type_of o)) h1
      else Some (wrap r, h1)
    end.
Proof.
  intros [Hp He]. cbn [provide_wxfexpr]. unfold dispatch. rewrite Hp.
  cbn [encoders try_encoders]. rewrite _encode_wrap. unfold encode. rewrite He.
  cbn [enc_class]. by destruct (DefaultWXFEncoder_encode _ e o h) as [[r h1]|].
Qed.

Lemma wrap_returned r : ending (wrap r) = Returned → tokens r ≠ [] ∧ wrap r = r.
Proof. destruct r as [[|t ts] [|e]]; cbn; done. Qed.

Lemma provide_wxfexpr_default_only_subtree h0 p e :
  default_only h0 p e →
  ∀ n o, gen_post (λ h, h = h0) Subtree (provide_wxfexpr n p o).
Proof.
  intros Hd n. induction n as [|n IH]; intros o h r h' -> Hrun; [done|].
  rewrite (provide_wxfexpr_default_only n h0 p e o Hd) in Hrun.
  destruct (DefaultWXFEncoder_encode _ e o h0) as [[r1 h1]|] eqn:E; [|done].
  assert (Hser : ∀ v, gen_post (λ h, h = h0) Subtree (serialize (provide_wxfexpr n) e v)).
  { intros v h2 r2 h3 -> Hs. destruct Hd as [_ He].
    rewrite (serialize_bound _ _ _ _ _ p He eq_refl) in Hs. by eapply IH. }
  destruct (DefaultWXFEncoder_encode_subtree _ _ e o Hser h0 r1 h1 eq_refl E) as [-> Hq].
  destruct (declined (wrap r1)).
  - injection Hrun as <- <-. split; [done|]. discriminate.
  - injection Hrun as <- <-. split; [done|]. intros Hr.
    destruct (wrap_returned _ Hr) as [Hne Hw]. rewrite Hw in *. by apply Hq.
Qed.

(** With a bound above the nesting depth of the value, the call completes. *)
Lemma provide_wxfexpr_default_only_total h p e :
  default_only h p e →
  ∀ n o, depth o < n → ∃ r, provide_wxfexpr n p o h = Some (r, h).
Proof.
  intros Hd n. induction n as [|n IH]; intros o Hn; [lia|].
  rewrite (provide_wxfexpr_default_only n h p e o Hd).
  assert (Hser : ∀ v, serialize (provide_wxfexpr n) e v h = provide_wxfexpr n p v h).
  { intros v. destruct Hd as [_ He]. by apply (serialize_bound _ _ _ _ _ p He). }
  assert (∃ r, DefaultWXFEncoder_encode (provide_wxfexpr n) e o h = Some (r, h)) as [r ->].
  { destruct o as [s|z|b|l|d| |x|re im|c]; try (by eexists).
    - rewrite DefaultWXFEncoder_encode_list, !gseq_yield.
      destruct (for_each_total l (serialize (provide_wxfexpr n) e) h) as [r ->];
        [| |by eexists].
      + intros x _. apply pure_serialize. intros; apply pure_provide_wxfexpr.
      + intros x Hx. rewrite Hser. apply depth_list_elem in Hx.
        destruct (IH x) as [r ->]; [lia|done].
    - rewrite DefaultWXFEncoder_encode_dict, !gseq_yield.
      match goal with |- context [for_each d ?f h] =>
        destruct (for_each_total d f h) as [r ->]; [| |by eexists] end.
      + intros [k v] _. repeat apply pure_seq; try apply pure_yield;
          apply pure_serialize; intros; apply pure_provide_wxfexpr.
      + intros [k v] Hkv. apply depth_dict_entry in Hkv as [Hk Hv]. cbn [fst snd].
        rewrite gseq_yield. unfold gseq. rewrite Hser.
        destruct (IH k) as [rk ->]; [lia|].
        destruct (ending rk); [|done]. rewrite Hser.
        destruct (IH v) as [rv ->]; [lia|done]. }
  destruct (declined (wrap r)); by eexists.
Qed.

(** ** The customary chain *)

Lemma default_chain_default_only : default_only default_chain 0 1.
Proof. split; reflexivity. Qed.

Lemma default_chain_provide n o :
  provide_wxfexpr (S n) 0 o default_chain =
    match DefaultWXFEncoder_encode (provide_wxfexpr n) 1 o default_chain with
    | None => None
    | Some (r, h1) =>
      if declined (wrap r) then raise (UnsupportedTypeError (type_of o)) h1
      else Some (wrap r, h1)
    end.
Proof. apply provide_wxfexpr_default_only, default_chain_default_only. Qed.

(** * The claims *)

(** The tests for [True] and [False] come after the integer test, which
    every boolean passes: the two branches are never reached. *)
Lemma is_True_shadowed o :
  is_True o = true ∨ is_False o = true → isinstance o integer_types = true.
Proof. destruct o as [| |[]| | | | | |]; cbn; intros [|]; done. Qed.

(** C1, as the code behaves: a boolean passes the integer test, which
    comes before the tests for [True] and [False], so the default encoder
    yields one integer token holding the boolean, and not the symbol
    token [True] or [False]; the chain of the default encoder hands that
    integer token out unchanged. *)
Theorem encode_bool_yields_integer_token :
  (∀ P self (b : bool) h,
     DefaultWXFEncoder_encode P self (PyBool b) h =
       Some (mkRun [WXFExprInteger (PyBool b)] Returned, h)) ∧
  (∀ n (b : bool),
     provide_wxfexpr (S n) 0 (PyBool b) default_chain =
       Some (mkRun [WXFExprInteger (PyBool b)] Returned, default_chain)) ∧
  (∀ P self h,
     DefaultWXFEncoder_encode P self (PyBool true) h ≠
       Some (mkRun [WXFExprSymbol "True"] Returned, h) ∧
     DefaultWXFEncoder_encode P self (PyBool false) h ≠
       Some (mkRun [WXFExprSymbol "False"] Returned, h)).
Proof.
  split_and!; [done| |done].
  intros n b. by rewrite default_chain_provide.
Qed.

(** C7: encoding [None] yields exactly one token, the symbol token named
    [None], both from the default encoder's [encode] itself and from the
    chain that holds it. *)
Theorem encode_None_yields_symbol_None :
  (∀ P self h,
     DefaultWXFEncoder_encode P self PyNone h =
       Some (mkRun [WXFExprSymbol "None"] Returned, h)) ∧
  (∀ n,
     provide_wxfexpr (S n) 0 PyNone default_chain =
       Some (mkRun [WXFExprSymbol "None"] Returned, default_chain)).
Proof.
  split; [done|]. intros n. by rewrite default_chain_provide.
Qed.

Lemma DefaultWXFEncoder_encode_unclaimed P self o h :
  claims o = false →
  DefaultWXFEncoder_encode P self o h = Some (mkRun [] Returned, h).
Proof. destruct o as [s|z|[]|l|d| |x|re im|c]; done. Qed.

(** C2: [_encode] raises the "not encoded" signal exactly when [encode]
    returns without a token.  For a run of [encode] of any encoder: if it
    returned no token, [_encode] yields nothing and raises
    [NotEncodedException]; if it yielded at least one token, [_encode] is
    that very run, tokens and ending, with no exception of its own; and a
    declining [_encode] always comes from a token-less [encode].  A value
    that fails the eight tests of the default encoder is declined so. *)
Theorem encode_wrapper_declines_exactly_on_empty P self o h :
  (∀ r h1, encode P self o h = Some (r, h1) →
     (tokens r = [] → ending r = Returned →
        _encode P self o h = Some (mkRun [] (Raised NotEncodedException), h1)) ∧
     (tokens r ≠ [] → _encode P self o h = Some (r, h1)) ∧
     (∀ r', _encode P self o h = Some (r', h1) → declined r' = true → tokens r = [])) ∧
  (∀ obj, encoder_objs h !! self = Some obj → enc_class obj = DefaultWXFEncoder →
     claims o = false →
     encode P self o h = Some (mkRun [] Returned, h) ∧
     _encode P self o h = Some (mkRun [] (Raised NotEncodedException), h)).
Proof.
  split.
  - intros r h1 E. rewrite _encode_wrap, E. destruct r as [ts e]. cbn.
    split; [|split].
    + by intros -> ->.
    + intros Hne. unfold wrap. cbn. by destruct ts.
    + intros r' [= <-]. unfold declined, wrap. cbn.
      destruct ts; [done|]. by destruct e.
  - intros obj Hobj Hcls Hc.
    assert (encode P self o h = Some (mkRun [] Returned, h)) as E.
    { unfold encode. rewrite Hobj, Hcls. by apply DefaultWXFEncoder_encode_unclaimed. }
    split; [done|]. by rewrite _encode_wrap, E.
Qed.

Lemma encode_wrapper_declines_exactly_on_empty_witness :
  _encode (provide_wxfexpr 2) 1 (PyOther "set") default_chain =
    Some (mkRun [] (Raised NotEncodedException), default_chain) ∧
  _encode (provide_wxfexpr 2) 1 (PyList [PyInt 7]) default_chain =
    Some (mkRun [WXFExprFunction 1; WXFExprSymbol "List"; WXFExprInteger (PyInt 7)]
                Returned, default_chain).
Proof.
  split.
  - refine (proj2 (proj2 (encode_wrapper_declines_exactly_on_empty
      (provide_wxfexpr 2) 1 (PyOther "set") default_chain)
      (mkEncoder DefaultWXFEncoder (Some 0)) _ _ _)); reflexivity.
  - refine (proj1 (proj2 (proj1 (encode_wrapper_declines_exactly_on_empty
      (provide_wxfexpr 2) 1 (PyList [PyInt 7]) default_chain)
      (mkRun [WXFExprFunction 1; WXFExprSymbol "List"; WXFExprInteger (PyInt 7)] Returned)
      default_chain _)) _); [reflexivity|discriminate].
Defined.

(** C10: on an encoder whose [_provider] is still the initial [None],
    [serialize] yields no token and fails with [AttributeError], whatever
    the value; this is the state [__init__] leaves a new encoder in. *)
Theorem serialize_unregistered_fails P self o h :
  (∀ obj, encoder_objs h !! self = Some obj → _provider obj = None →
     serialize P self o h = Some (mkRun [] (Raised AttributeError), h)) ∧
  (∀ c, serialize P self o (WXFEncoder_init self c h) =
     Some (mkRun [] (Raised AttributeError), WXFEncoder_init self c h)).
Proof.
  split.
  - intros obj. apply serialize_unbound.
  - intros c. apply (serialize_unbound _ _ _ _ (mkEncoder c None)); [|done].
    cbn. apply lookup_insert_eq.
Qed.

Lemma serialize_unregistered_fails_witness :
  serialize (provide_wxfexpr 3) 4 (PyList [PyInt 1])
    (WXFEncoder_init 4 DefaultWXFEncoder default_chain) =
  Some (mkRun [] (Raised AttributeError),
        WXFEncoder_init 4 DefaultWXFEncoder default_chain).
Proof.
  refine (proj1 (serialize_unregistered_fails (provide_wxfexpr 3) 4 (PyList [PyInt 1])
    (WXFEncoder_init 4 DefaultWXFEncoder default_chain))
    (mkEncoder DefaultWXFEncoder None) _ _); reflexivity.
Defined.

Lemma gseq_pure_ext (g1 g1' g2 g2' : Gen) h :
  pure g1' → g1 h = g1' h → g2 h = g2' h → (g1 ;; g2) h = (g1' ;; g2') h.
Proof.
  intros Hp H1 H2. unfold gseq. rewrite H1.
  destruct (g1' h) as [[r1 h1]|] eqn:E; [|done].
  apply Hp in E as ->. by rewrite H2.
Qed.

Lemma serialize_at_bound n self p o h :
  bound h self p → serialize (provide_wxfexpr n) self o h = provide_wxfexpr n p o h.
Proof. intros (obj & Hobj & Hp). by eapply serialize_bound. Qed.

Lemma for_each_serialize_bound n self p l h :
  bound h self p →
  for_each l (serialize (provide_wxfexpr n) self) h = for_each l (provide_wxfexpr n p) h.
Proof.
  intros Hb. apply for_each_pure_ext.
  - intros x _. apply pure_provide_wxfexpr.
  - intros x _. by apply serialize_at_bound.
Qed.

Lemma for_each_entries_bound n self p (d : list (PyObj * PyObj)) h :
  bound h self p →
  for_each d (λ kv, yield WXFExprRule ;;
                    serialize (provide_wxfexpr n) self kv.1 ;;
                    serialize (provide_wxfexpr n) self kv.2) h =
  for_each d (λ kv, yield WXFExprRule ;;
                    provide_wxfexpr n p kv.1 ;; provide_wxfexpr n p kv.2) h.
Proof.
  intros Hb. apply for_each_pure_ext.
  - intros kv _. repeat apply pure_seq; try apply pure_yield; apply pure_provide_wxfexpr.
  - intros kv _. apply gseq_pure_ext; [apply pure_yield|done|].
    apply gseq_pure_ext; [apply pure_provide_wxfexpr|..]; by apply serialize_at_bound.
Qed.

(** C3: for a list of N elements the default encoder yields the function
    header of arity N, the symbol [List], and then what [serialize] yields
    for each element, first to last.  Bound to a chain, that is the
    chain's encoding of each element in turn; when these all return, the
    stream is the two head tokens followed by the element streams end to
    end.  On the customary chain [[]] gives the two head tokens alone and
    [[1, [2, 3]]] the seven tokens in depth-first pre-order. *)
Theorem encode_list_header_then_elements :
  (∀ P self l h,
     DefaultWXFEncoder_encode P self (PyList l) h =
     (yield (WXFExprFunction (length l)) ;;
      yield (WXFExprSymbol "List") ;;
      for_each l (serialize P self)) h) ∧
  (∀ n self p l h, bound h self p →
     DefaultWXFEncoder_encode (provide_wxfexpr n) self (PyList l) h =
     (yield (WXFExprFunction (length l)) ;;
      yield (WXFExprSymbol "List") ;;
      for_each l (provide_wxfexpr n p)) h) ∧
  (∀ n self p l h tss, bound h self p →
     Forall2 (λ x ts, provide_wxfexpr n p x h = Some (mkRun ts Returned, h)) l tss →
     DefaultWXFEncoder_encode (provide_wxfexpr n) self (PyList l) h =
       Some (mkRun (WXFExprFunction (length l) :: WXFExprSymbol "List" :: concat tss)
                   Returned, h)) ∧
  (∀ P self h,
     DefaultWXFEncoder_encode P self (PyList []) h =
       Some (mkRun [WXFExprFunction 0; WXFExprSymbol "List"] Returned, h)) ∧
  (∀ n, provide_wxfexpr (S n) 0 (PyList []) default_chain =
       Some (mkRun [WXFExprFunction 0; WXFExprSymbol "List"] Returned, default_chain)) ∧
  (∀ n, 3 ≤ n →
     provide_wxfexpr n 0 (PyList [PyInt 1; PyList [PyInt 2; PyInt 3]]) default_chain =
       Some (mkRun [WXFExprFunction 2; WXFExprSymbol "List"; WXFExprInteger (PyInt 1);
                    WXFExprFunction 2; WXFExprSymbol "List";
                    WXFExprInteger (PyInt 2); WXFExprInteger (PyInt 3)]
                   Returned, default_chain)).
Proof.
  assert (Hbound : ∀ n self p l h, bound h self p →
     DefaultWXFEncoder_encode (provide_wxfexpr n) self (PyList l) h =
     (yield (WXFExprFunction (length l)) ;;
      yield (WXFExprSymbol "List") ;;
      for_each l (provide_wxfexpr n p)) h).
  { intros n self p l h Hb.
    rewrite DefaultWXFEncoder_encode_list, !gseq_yield.
    by rewrite (for_each_serialize_bound n self p l h Hb). }
  split_and!.
  - intros. apply DefaultWXFEncoder_encode_list.
  - exact Hbound.
  - intros n self p l h tss Hb Hall.
    rewrite (Hbound n self p l h Hb), !gseq_yield.
    by rewrite (for_each_returned l _ tss h Hall).
  - reflexivity.
  - intros n. rewrite default_chain_provide. reflexivity.
  - intros n Hn. by apply (provide_wxfexpr_mono 3 n _ _ Hn).
Qed.

Lemma encode_list_header_then_elements_witness :
  DefaultWXFEncoder_encode (provide_wxfexpr 1) 1 (PyList [PyInt 1; PyStr "a"]) default_chain =
    Some (mkRun [WXFExprFunction 2; WXFExprSymbol "List";
                 WXFExprInteger (PyInt 1); WXFExprString (PyStr "a")]
                Returned, default_chain) ∧
  provide_wxfexpr 3 0 (PyList [PyInt 1; PyList [PyInt 2; PyInt 3]]) default_chain =
    Some (mkRun [WXFExprFunction 2; WXFExprSymbol "List"; WXFExprInteger (PyInt 1);
                 WXFExprFunction 2; WXFExprSymbol "List";
                 WXFExprInteger (PyInt 2); WXFExprInteger (PyInt 3)]
                Returned, default_chain).
Proof.
  split.
  - refine (proj1 (proj2 (proj2 encode_list_header_then_elements))
      1 1 0 [PyInt 1; PyStr "a"] default_chain
      [[WXFExprInteger (PyInt 1)]; [WXFExprString (PyStr "a")]] _ _).
    + exists (mkEncoder DefaultWXFEncoder (Some 0)). split; reflexivity.
    + repeat constructor.
  - refine (proj2 (proj2 (proj2 (proj2 (proj2 encode_list_header_then_elements)))) 3 _).
    constructor.
Defined.

(** C4: for a mapping of N entries the default encoder yields the
    association header of arity N and then, entry by entry in iteration
    order, a rule marker, what [serialize] yields for the key and what it
    yields for the value.  Bound to a chain, these are the chain's
    encodings of key and value; when they all return, the stream is the
    header followed by the rule triples end to end.  The empty mapping
    gives the header of arity 0 and nothing else. *)
Theorem encode_dict_header_then_rules :
  (∀ P self d h,
     DefaultWXFEncoder_encode P self (PyDict d) h =
     (yield (WXFExprAssociation (length d)) ;;
      for_each d (λ kv, yield WXFExprRule ;;
                        serialize P self kv.1 ;; serialize P self kv.2)) h) ∧
  (∀ n self p d h, bound h self p →
     DefaultWXFEncoder_encode (provide_wxfexpr n) self (PyDict d) h =
     (yield (WXFExprAssociation (length d)) ;;
      for_each d (λ kv, yield WXFExprRule ;;
                        provide_wxfexpr n p kv.1 ;; provide_wxfexpr n p kv.2)) h) ∧
  (∀ n self p d h tss, bound h self p →
     Forall2 (λ kv ts, ∃ tk tv,
                provide_wxfexpr n p kv.1 h = Some (mkRun tk Returned, h) ∧
                provide_wxfexpr n p kv.2 h = Some (mkRun tv Returned, h) ∧
                ts = WXFExprRule :: tk ++ tv) d tss →
     DefaultWXFEncoder_encode (provide_wxfexpr n) self (PyDict d) h =
       Some (mkRun (WXFExprAssociation (length d) :: concat tss) Returned, h)) ∧
  (∀ P self h,
     DefaultWXFEncoder_encode P self (PyDict []) h =
       Some (mkRun [WXFExprAssociation 0] Returned, h)) ∧
  (∀ n, provide_wxfexpr (S n) 0 (PyDict []) default_chain =
       Some (mkRun [WXFExprAssociation 0] Returned, default_chain)).
Proof.
  assert (Hbound : ∀ n self p d h, bound h self p →
     DefaultWXFEncoder_encode (provide_wxfexpr n) self (PyDict d) h =
     (yield (WXFExprAssociation (length d)) ;;
      for_each d (λ kv, yield WXFExprRule ;;
                        provide_wxfexpr n p kv.1 ;; provide_wxfexpr n p kv.2)) h).
  { intros n self p d h Hb.
    rewrite DefaultWXFEncoder_encode_dict, !gseq_yield.
    by rewrite (for_each_entries_bound n self p d h Hb). }
  split_and!.
  - intros. apply DefaultWXFEncoder_encode_dict.
  - exact Hbound.
  - intros n self p d h tss Hb Hall.
    rewrite (Hbound n self p d h Hb), gseq_yield.
    rewrite (for_each_returned d _ tss h); [done|].
    eapply Forall2_impl; [exact Hall|].
    intros [k v] ts (tk & tv & Hk & Hv & ->). cbn [fst snd] in *.
    rewrite gseq_yield, (gseq_returned _ _ _ _ _ Hk), Hv. done.
  - reflexivity.
  - intros n. rewrite default_chain_provide. reflexivity.
Qed.

Lemma encode_dict_header_then_rules_witness :
  DefaultWXFEncoder_encode (provide_wxfexpr 1) 1
    (PyDict [(PyStr "k1", PyInt 1); (PyStr "k2", PyNone)]) default_chain =
  Some (mkRun [WXFExprAssociation 2;
               WXFExprRule; WXFExprString (PyStr "k1"); WXFExprInteger (PyInt 1);
               WXFExprRule; WXFExprString (PyStr "k2"); WXFExprSymbol "None"]
              Returned, default_chain).
Proof.
  refine (proj1 (proj2 (proj2 encode_dict_header_then_rules))
    1 1 0 [(PyStr "k1", PyInt 1); (PyStr "k2", PyNone)] default_chain
    [[WXFExprRule; WXFExprString (PyStr "k1"); WXFExprInteger (PyInt 1)];
     [WXFExprRule; WXFExprString (PyStr "k2"); WXFExprSymbol "None"]] _ _).
  - exists (mkEncoder DefaultWXFEncoder (Some 0)). split; reflexivity.
  - constructor; [|constructor; [|constructor]].
    + exists [WXFExprString (PyStr "k1")], [WXFExprInteger (PyInt 1)].
      split; [reflexivity|split; reflexivity].
    + exists [WXFExprString (PyStr "k2")], [WXFExprSymbol "None"].
      split; [reflexivity|split; reflexivity].
Defined.

(** ** The executable parser accepts every well-formed stream *)

Lemma parse_S fuel need ts :
  parse (S fuel) need ts =
    match need with
    | 0 => Some ts
    | S need' =>
      match ts with
      | [] => None
      | WXFExprFunction n :: rest =>
        rest' ← parse fuel (S n) rest; parse fuel need' rest'
      | WXFExprAssociation n :: rest =>
        rest' ← parse_rules fuel n rest; parse fuel need' rest'
      | WXFExprRule :: _ => None
      | _ :: rest => parse fuel need' rest
      end
    end.
Proof. reflexivity. Qed.

Lemma parse_rules_S fuel need ts :
  parse_rules (S fuel) need ts =
    match need with
    | 0 => Some ts
    | S need' =>
      match ts with
      | WXFExprRule :: rest =>
        rest' ← parse fuel 2 rest; parse_rules fuel need' rest'
      | _ => None
      end
    end.
Proof. reflexivity. Qed.

Lemma parse_step fuel :
  (∀ need ts r, parse fuel need ts = Some r → parse (S fuel) need ts = Some r) ∧
  (∀ need ts r, parse_rules fuel need ts = Some r → parse_rules (S fuel) need ts = Some r).
Proof.
  induction fuel as [|fuel [IHp IHr]]; [done|].
  split; intros need ts r.
  - rewrite (parse_S (S fuel)), (parse_S fuel).
    destruct need as [|need]; [done|].
    destruct ts as [|[v|v|v|s|n|n|] rest]; try done; try apply IHp.
    + destruct (parse fuel (S n) rest) as [rest'|] eqn:E; [|done].
      rewrite (IHp _ _ _ E). cbn [mbind option_bind]. apply IHp.
    + destruct (parse_rules fuel n rest) as [rest'|] eqn:E; [|done].
      rewrite (IHr _ _ _ E). cbn [mbind option_bind]. apply IHp.
  - rewrite (parse_rules_S (S fuel)), (parse_rules_S fuel).
    destruct need as [|need]; [done|].
    destruct ts as [|[v|v|v|s|n|n|] rest]; try done.
    destruct (parse fuel 2 rest) as [rest'|] eqn:E; [|done].
    rewrite (IHp _ _ _ E). cbn [mbind option_bind]. apply IHr.
Qed.

Lemma parse_mono f f' need ts r :
  f ≤ f' → parse f need ts = Some r → parse f' need ts = Some r.
Proof. induction 1; [done|]. intros. by apply parse_step; auto. Qed.

Lemma parse_rules_mono f f' need ts r :
  f ≤ f' → parse_rules f need ts = Some r → parse_rules f' need ts = Some r.
Proof. induction 1; [done|]. intros. by apply parse_step; auto. Qed.

Lemma parse_accepts :
  (∀ t, Subtree t →
     ∀ need rest f r, parse f need rest = Some r →
       ∃ f', parse f' (S need) (t ++ rest) = Some r) ∧
  (∀ n ts, Subtrees n ts →
     ∀ need rest f r, parse f need rest = Some r →
       ∃ f', parse f' (n + need) (ts ++ rest) = Some r) ∧
  (∀ n ts, RulePairs n ts →
     ∀ rest, ∃ f', parse_rules f' n (ts ++ rest) = Some rest).
Proof.
  apply Subtree_mutind.
  - intros t Ht need rest f r Hr. exists (S f). by destruct t.
  - intros n ts _ IH need rest f r Hr.
    destruct (IH 0 rest 1 rest eq_refl) as [f1 H1]. rewrite Nat.add_0_r in H1.
    exists (S (f1 `max` f)). cbn [app parse].
    rewrite (parse_mono f1 _ _ _ _ (Nat.le_max_l _ _) H1). cbn.
    by apply (parse_mono f), Hr; lia.
  - intros n ts _ IH need rest f r Hr.
    destruct (IH rest) as [f1 H1].
    exists (S (f1 `max` f)). cbn [app parse].
    rewrite (parse_rules_mono f1 _ _ _ _ (Nat.le_max_l _ _) H1). cbn.
    by apply (parse_mono f), Hr; lia.
  - intros need rest f r Hr. by exists f.
  - intros n t ts _ IHt _ IHts need rest f r Hr.
    destruct (IHts need rest f r Hr) as [f1 H1].
    destruct (IHt (n + need) (ts ++ rest) f1 r H1) as [f2 H2].
    exists f2. by rewrite <- app_assoc.
  - intros rest. by exists 1.
  - intros n k v ts _ IHk _ IHv _ IHts rest.
    destruct (IHts rest) as [f1 H1].
    destruct (IHv 0 (ts ++ rest) 1 (ts ++ rest) eq_refl) as [f2 H2].
    destruct (IHk 1 (v ++ ts ++ rest) f2 (ts ++ rest) H2) as [f3 H3].
    exists (S (f3 `max` f1)). cbn [app parse_rules].
    rewrite <- !app_assoc.
    rewrite (parse_mono f3 _ _ _ _ (Nat.le_max_l _ _) H3). cbn.
    by apply (parse_rules_mono f1), H1; lia.
Qed.

Lemma Subtree_parse ts : Subtree ts → ∃ f, parse f 1 ts = Some [].
Proof.
  intros H. destruct (proj1 parse_accepts ts H 0 [] 1 [] eq_refl) as [f Hf].
  exists f. by rewrite app_nil_r in Hf.
Qed.

(** A stream cut short after its head is not a complete subtree. *)
Lemma truncated_stream_rejected :
  ¬ Subtree [WXFExprFunction 1; WXFExprSymbol "List"].
Proof.
  intros H. apply Subtree_parse in H as [f Hf].
  destruct f as [|[|[|[|f]]]]; discriminate.
Qed.

Lemma DefaultWXFEncoder_encode_claimed P self o h r h' :
  claims o = true →
  DefaultWXFEncoder_encode P self o h = Some (r, h') → tokens r ≠ [].
Proof.
  intros Hc.
  destruct o as [s|z|b|l|d| |x|re im|c]; try (by intros [= <- <-]); try done.
  - rewrite DefaultWXFEncoder_encode_list, gseq_yield.
    destruct ((_ ;; _) h) as [[r1 h1]|]; [|done]. by intros [= <- <-].
  - rewrite DefaultWXFEncoder_encode_dict, gseq_yield.
    destruct (for_each _ _ h) as [[r1 h1]|]; [|done]. by intros [= <- <-].
Qed.

Lemma encode_at_default_only n h p e o :
  default_only h p e →
  encode_at n e o h = DefaultWXFEncoder_encode (provide_wxfexpr n) e o h.
Proof. intros [_ He]. unfold encode_at, encode. by rewrite He. Qed.

(** C5: the streams of the default encoder obey the arity law.  Whatever
    the provider, if the sub-values it is handed come back as complete
    subtrees, every claimed value comes out as one complete
    subtree: a function header of arity N followed by N+1 subtrees, an
    association header of arity N followed by N rule pairs, a rule pair
    being a rule marker followed by 2 subtrees.  On a chain that holds
    the default encoder alone this holds outright for every run that
    returns, of [encode] and of the chain, and the executable parser
    accepts the stream as exactly one subtree; with a recursion bound
    above the depth of the value the run does complete. *)
Theorem default_encoder_streams_arity_correct :
  (∀ P self o h r h',
     (∀ p v h1 r1 h2, P p v h1 = Some (r1, h2) →
        ending r1 = Returned → Subtree (tokens r1)) →
     claims o = true →
     DefaultWXFEncoder_encode P self o h = Some (r, h') →
     ending r = Returned → Subtree (tokens r)) ∧
  (∀ h p e n o r h', default_only h p e →
     claims o = true →
     encode_at n e o h = Some (r, h') →
     ending r = Returned →
     Subtree (tokens r) ∧ ∃ f, parse f 1 (tokens r) = Some []) ∧
  (∀ h p e n o r h', default_only h p e →
     provide_wxfexpr n p o h = Some (r, h') →
     ending r = Returned →
     Subtree (tokens r) ∧ ∃ f, parse f 1 (tokens r) = Some []) ∧
  (∀ h p e n o, default_only h p e → depth o < n →
     ∃ r, provide_wxfexpr n p o h = Some (r, h)).
Proof.
  assert (Hrel : ∀ P self o h r h',
     (∀ p v h1 r1 h2, P p v h1 = Some (r1, h2) →
        ending r1 = Returned → Subtree (tokens r1)) →
     claims o = true →
     DefaultWXFEncoder_encode P self o h = Some (r, h') →
     ending r = Returned → Subtree (tokens r)).
  { intros P self o h r h' HP Hc Hrun Hret.
    assert (∀ v, gen_post (λ _, True) Subtree (serialize P self v)) as Hser.
    { intros v. apply gen_post_serialize. intros p h1 r1 h2 _ Hs.
      split; [done|]. by eapply HP. }
    destruct (DefaultWXFEncoder_encode_subtree _ P self o Hser h r h' I Hrun) as [_ Hq].
    apply Hq; [done|]. by eapply DefaultWXFEncoder_encode_claimed. }
  split_and!.
  - exact Hrel.
  - intros h p e n o r h' Hd Hc Hrun Hret.
    rewrite (encode_at_default_only n h p e o Hd) in Hrun.
    assert (Subtree (tokens r)) as Hs; [|split; [done|by apply Subtree_parse]].
    assert (Hser : ∀ v, gen_post (λ h1, h1 = h) Subtree
                         (serialize (provide_wxfexpr n) e v)).
    { intros v h1 r1 h2 -> Hs.
      rewrite (serialize_bound _ _ _ _ _ p (proj2 Hd) eq_refl) in Hs.
      by eapply (provide_wxfexpr_default_only_subtree h p e Hd n v). }
    destruct (DefaultWXFEncoder_encode_subtree _ _ e o Hser h r h' eq_refl Hrun)
      as [_ Hq].
    apply Hq; [done|]. by eapply DefaultWXFEncoder_encode_claimed.
  - intros h p e n o r h' Hd Hrun Hret.
    destruct (provide_wxfexpr_default_only_subtree h p e Hd n o h r h' eq_refl Hrun)
      as [_ Hs].
    split; [by apply Hs|by apply Subtree_parse, Hs].
  - intros h p e n o Hd Hn. by eapply provide_wxfexpr_default_only_total.
Qed.

Lemma default_encoder_streams_arity_correct_witness :
  provide_wxfexpr 3 0 nested_value default_chain =
    Some (mkRun nested_tokens Returned, default_chain) ∧
  Subtree nested_tokens ∧ ∃ f, parse f 1 nested_tokens = Some [].
Proof.
  split; [reflexivity|].
  refine (proj1 (proj2 (proj2 default_encoder_streams_arity_correct))
    default_chain 0 1 3 nested_value (mkRun nested_tokens Returned) default_chain
    (conj eq_refl eq_refl) _ _); reflexivity.
Defined.

Lemma refines_encode_at n m self o :
  n ≤ m → refines (encode_at n self o) (encode_at m self o).
Proof. intros Hn. apply refines_encode. intros p v. by apply provide_wxfexpr_mono. Qed.

(** C6: from inside an encoder bound to a chain, [serialize(v)] is the
    chain's entry point on [v]: the same tokens in the same order, the
    same ending and the same store, whatever the provider's method does;
    so it is on the chain of section 4.1 at every recursion bound, and
    two completed runs, one of [serialize] and one of the entry point,
    agree even under different bounds. *)
Theorem serialize_is_chain_entry_point h self p o :
  bound h self p →
  (∀ P, serialize P self o h = P p o h) ∧
  (∀ n, serialize_at n self o h = provide_wxfexpr n p o h) ∧
  (∀ n m x y, serialize_at n self o h = Some x →
              provide_wxfexpr m p o h = Some y → x = y).
Proof.
  intros (obj & Hobj & Hp). split_and!.
  - intros P. by eapply serialize_bound.
  - intros n. by eapply serialize_bound.
  - intros n m x y Hx Hy. unfold serialize_at in Hx.
    rewrite (serialize_bound _ _ _ _ _ _ Hobj Hp) in Hx.
    by eapply provide_wxfexpr_agree.
Qed.

Lemma serialize_is_chain_entry_point_witness :
  serialize_at 2 2 (PyList [PyInt 2; PyInt 3]) foo_chain =
  provide_wxfexpr 2 0 (PyList [PyInt 2; PyInt 3]) foo_chain.
Proof.
  refine (proj1 (proj2 (serialize_is_chain_entry_point foo_chain 2 0
    (PyList [PyInt 2; PyInt 3]) _)) 2).
  exists (mkEncoder foo_encoder (Some 0)). split; reflexivity.
Defined.

(** The docstring's example, run on the chain. *)
Example foo_chain_encodes_foo :
  provide_wxfexpr 3 0 (PyOther "foo") foo_chain =
  Some (mkRun foo_tokens Returned, foo_chain).
Proof. reflexivity. Qed.

(** C8: encoding is deterministic.  Two completed top-level runs on the
    same value and the same chain configuration yield the same tokens
    with the same ending, whether both start from that configuration or
    the second starts where the first one stopped, and whatever their
    recursion bounds; the same holds for two runs of an encoder's
    [encode]. *)
Theorem encode_twice_same_tokens p self o h :
  (∀ n m r1 h1 r2 h2,
     provide_wxfexpr n p o h = Some (r1, h1) →
     provide_wxfexpr m p o h = Some (r2, h2) →
     r1 = r2 ∧ h1 = h2) ∧
  (∀ n m r1 h1 r2 h2,
     provide_wxfexpr n p o h = Some (r1, h1) →
     provide_wxfexpr m p o h1 = Some (r2, h2) →
     r1 = r2) ∧
  (∀ n m r1 h1 r2 h2,
     encode_at n self o h = Some (r1, h1) →
     encode_at m self o h1 = Some (r2, h2) →
     r1 = r2).
Proof.
  split_and!.
  - intros n m r1 h1 r2 h2 H1 H2.
    pose proof (provide_wxfexpr_agree _ _ _ _ _ _ _ H1 H2). by simplify_eq.
  - intros n m r1 h1 r2 h2 H1 H2.
    pose proof (pure_provide_wxfexpr _ _ _ _ _ _ H1) as ->.
    pose proof (provide_wxfexpr_agree _ _ _ _ _ _ _ H1 H2). by simplify_eq.
  - intros n m r1 h1 r2 h2 H1 H2.
    assert (h1 = h) as ->.
    { eapply pure_encode; [|exact H1]. intros; apply pure_provide_wxfexpr. }
    apply (refines_encode_at n (n `max` m) self o (Nat.le_max_l _ _)) in H1.
    apply (refines_encode_at m (n `max` m) self o (Nat.le_max_r _ _)) in H2.
    congruence.
Qed.

Lemma encode_twice_same_tokens_witness :
  provide_wxfexpr 3 0 (PyOther "foo") foo_chain =
    Some (mkRun foo_tokens Returned, foo_chain) ∧
  provide_wxfexpr 5 0 (PyOther "foo") foo_chain =
    Some (mkRun foo_tokens Returned, foo_chain) ∧
  mkRun foo_tokens Returned = mkRun foo_tokens Returned.
Proof.
  split; [reflexivity|]. split; [reflexivity|].
  refine (proj1 (proj2 (encode_twice_same_tokens 0 2 (PyOther "foo") foo_chain))
    3 5 (mkRun foo_tokens Returned) foo_chain (mkRun foo_tokens Returned) foo_chain
    _ _); reflexivity.
Defined.

Lemma pure_encode_calls n p vs h rs h' :
  encode_calls n p vs h = Some (rs, h') → h' = h.
Proof.
  revert h rs h'. induction vs as [|v vs IH]; intros h rs h'; cbn [encode_calls].
  - by intros [= _ <-].
  - destruct (provide_wxfexpr n p v h) as [[r h1]|] eqn:E; [|done].
    apply pure_provide_wxfexpr in E as ->.
    destruct (encode_calls n p vs h) as [[rs' h2]|] eqn:E2; [|done].
    apply IH in E2 as ->. by intros [= _ <-].
Qed.

(** Registration, by contrast, does write the slot. *)
Lemma register_binds p e pos h chain obj :
  provider_objs h !! p = Some chain → encoder_objs h !! e = Some obj →
  bound (register p e pos h) e p.
Proof.
  intros Hp He. unfold register. rewrite Hp, He.
  exists (mkEncoder (enc_class obj) (Some p)). split; [|done].
  cbn. apply lookup_insert_eq.
Qed.

(** C9: an encode call leaves the store as it found it.  The methods of
    [WXFEncoder] and [DefaultWXFEncoder] write nothing: whenever the
    provider's method leaves the store unchanged, so do [encode],
    [_encode] and [serialize].  On the chain of section 4.1, every
    completed run of [encode], [_encode] and [serialize] of any encoder,
    of the chain's entry point, and of any series of top-level calls ends
    in the store it started from; in particular every encoder has the
    same [_provider] and every chain the same encoder list before and
    after. *)
Theorem encode_leaves_store_unchanged n h :
  (∀ P self o, (∀ p v, pure (P p v)) →
     pure (encode P self o) ∧ pure (_encode P self o) ∧ pure (serialize P self o)) ∧
  (∀ self o r h', encode_at n self o h = Some (r, h') → h' = h) ∧
  (∀ self o r h', _encode_at n self o h = Some (r, h') → h' = h) ∧
  (∀ self o r h', serialize_at n self o h = Some (r, h') → h' = h) ∧
  (∀ p o r h', provide_wxfexpr n p o h = Some (r, h') →
     h' = h ∧
     (∀ e, _provider <$> encoder_objs h' !! e = _provider <$> encoder_objs h !! e) ∧
     (∀ q, encoders <$> provider_objs h' !! q = encoders <$> provider_objs h !! q)) ∧
  (∀ p vs rs h', encode_calls n p vs h = Some (rs, h') → h' = h).
Proof.
  assert (Hp : ∀ p v, pure (provide_wxfexpr n p v))
    by (intros; apply pure_provide_wxfexpr).
  split_and!.
  - intros P self o HP. split_and!.
    + by apply pure_encode.
    + by apply pure__encode.
    + apply pure_serialize. intros; apply HP.
  - intros self o r h'. by apply pure_encode.
  - intros self o r h'. by apply pure__encode.
  - intros self o r h'. apply pure_serialize. intros; apply Hp.
  - intros p o r h' Hrun. apply Hp in Hrun as ->. done.
  - intros p vs rs h'. apply pure_encode_calls.
Qed.

Lemma encode_leaves_store_unchanged_witness :
  provide_wxfexpr 3 0 (PyOther "foo") foo_chain =
    Some (mkRun foo_tokens Returned, foo_chain) ∧
  (foo_chain = foo_chain ∧
   (∀ e, _provider <$> encoder_objs foo_chain !! e =
         _provider <$> encoder_objs foo_chain !! e) ∧
   (∀ q, encoders <$> provider_objs foo_chain !! q =
         encoders <$> provider_objs foo_chain !! q)).
Proof.
  split; [reflexivity|].
  refine (proj1 (proj2 (proj2 (proj2 (proj2 (encode_leaves_store_unchanged 3 foo_chain)))))
    0 (PyOther "foo") (mkRun foo_tokens Returned) foo_chain _). reflexivity.
Defined.

(** * Further properties of the encoder classes *)

(** The first token of the default encoder is fixed by the class of the
    value alone, whatever the provider, the instance and the store: the
    string, integer or real token of a scalar (an integer token for a
    boolean), the header of a container or of a complex number, the
    symbol [None]; and no value at all makes it the symbol [True] or the
    symbol [False]. *)
Theorem DefaultWXFEncoder_encode_first_token P self o h r h' :
  DefaultWXFEncoder_encode P self o h = Some (r, h') →
  head (tokens r) = first_token o ∧
  head (tokens r) ≠ Some (WXFExprSymbol "True") ∧
  head (tokens r) ≠ Some (WXFExprSymbol "False").
Proof.
  intros Hrun.
  assert (head (tokens r) = first_token o) as ->.
  { destruct o as [s|z|b|l|d| |x|re im|c];
      try (by injection Hrun as <- <-).
    - rewrite DefaultWXFEncoder_encode_list, gseq_yield in Hrun.
      destruct ((_ ;; _) h) as [[r1 h1]|]; [|done]. by injection Hrun as <- <-.
    - rewrite DefaultWXFEncoder_encode_dict, gseq_yield in Hrun.
      destruct (for_each _ _ h) as [[r1 h1]|]; [|done]. by injection Hrun as <- <-. }
  split; [done|]. by destruct o.
Qed.

Lemma DefaultWXFEncoder_encode_first_token_witness :
  head [WXFExprInteger (PyBool true)] = first_token (PyBool true) ∧
  head [WXFExprInteger (PyBool true)] ≠ Some (WXFExprSymbol "True") ∧
  head [WXFExprInteger (PyBool true)] ≠ Some (WXFExprSymbol "False").
Proof.
  refine (DefaultWXFEncoder_encode_first_token (provide_wxfexpr 0) 1 (PyBool true)
    default_chain (mkRun [WXFExprInteger (PyBool true)] Returned) default_chain _).
  reflexivity.
Defined.

Lemma tokens_wrap r : tokens (wrap r) = tokens r.
Proof. by destruct r as [[|t ts] [|e]]. Qed.



(** An instance of the base class, whose [encode] is not overridden,
    does not decline: [encode] and [_encode] both fail with
    [NotImplementedError] before any token, for every value, and that run
    is not the "not encoded" signal. *)
Theorem base_encoder_raises_NotImplementedError P self o h obj :
  encoder_objs h !! self = Some obj → enc_class obj = WXFEncoder →
  encode P self o h = Some (mkRun [] (Raised NotImplementedError), h) ∧
  _encode P self o h = Some (mkRun [] (Raised NotImplementedError), h) ∧
  ∀ r h', _encode P self o h = Some (r, h') → declined r = false.
Proof.
  intros Hobj Hcls.
  assert (encode P self o h = Some (mkRun [] (Raised NotImplementedError), h)) as E.
  { unfold encode. by rewrite Hobj, Hcls. }
  assert (_encode P self o h = Some (mkRun [] (Raised NotImplementedError), h)) as E'.
  { by rewrite _encode_wrap, E. }
  split; [done|]. split; [done|]. rewrite E'. by intros r h' [= <- <-].
Qed.

Lemma base_encoder_raises_NotImplementedError_witness :
  encode (provide_wxfexpr 1) 5 (PyInt 3) (WXFEncoder_init 5 WXFEncoder default_chain) =
    Some (mkRun [] (Raised NotImplementedError),
          WXFEncoder_init 5 WXFEncoder default_chain) ∧
  _encode (provide_wxfexpr 1) 5 (PyInt 3) (WXFEncoder_init 5 WXFEncoder default_chain) =
    Some (mkRun [] (Raised NotImplementedError),
          WXFEncoder_init 5 WXFEncoder default_chain) ∧
  ∀ r h', _encode (provide_wxfexpr 1) 5 (PyInt 3)
            (WXFEncoder_init 5 WXFEncoder default_chain) = Some (r, h') →
          declined r = false.
Proof.
  refine (base_encoder_raises_NotImplementedError (provide_wxfexpr 1) 5 (PyInt 3)
    (WXFEncoder_init 5 WXFEncoder default_chain) (mkEncoder WXFEncoder None) _ _);
    reflexivity.
Defined.

(** The default encoder is declined by [_encode] on exactly the values
    that fail its eight tests: a value passing one of them is never
    reported as "not encoded", whatever the provider does with its
    sub-values. *)
Theorem DefaultWXFEncoder_declined_iff_unclaimed P self o h obj r h' :
  encoder_objs h !! self = Some obj → enc_class obj = DefaultWXFEncoder →
  _encode P self o h = Some (r, h') →
  (declined r = true ↔ claims o = false).
Proof.
  intros Hobj Hcls. rewrite _encode_wrap. unfold encode. rewrite Hobj, Hcls.
  destruct (DefaultWXFEncoder_encode P self o h) as [[r0 h0]|] eqn:E; [|done].
  intros [= <- <-]. destruct (claims o) eqn:Hc.
  - pose proof (DefaultWXFEncoder_encode_claimed _ _ _ _ _ _ Hc E) as Hne.
    split; [|done]. unfold declined. rewrite tokens_wrap.
    by destruct (tokens r0).
  - rewrite (DefaultWXFEncoder_encode_unclaimed P self o h Hc) in E.
    by injection E as <- <-.
Qed.

Lemma DefaultWXFEncoder_declined_iff_unclaimed_witness :
  declined (mkRun [] (Raised NotEncodedException)) = true ↔
  claims (PyOther "set") = false.
Proof.
  refine (DefaultWXFEncoder_declined_iff_unclaimed (provide_wxfexpr 1) 1 (PyOther "set")
    default_chain (mkEncoder DefaultWXFEncoder (Some 0))
    (mkRun [] (Raised NotEncodedException)) default_chain _ _ _); reflexivity.
Defined.

(** A value without sub-values never reaches [serialize]: the default
    encoder gives it one and the same returned run for every provider,
    every instance, bound or not, and every store, which it leaves
    unchanged. *)
Theorem DefaultWXFEncoder_encode_childless o :
  childless o = true →
  ∃ r, ending r = Returned ∧
       ∀ P self h, DefaultWXFEncoder_encode P self o h = Some (r, h).
Proof.
  intros Hc.
  destruct o as [s|z|b|[|x l]|[|kv d]| |x|re im|c]; try done;
    (eexists; split; [|intros P self h; reflexivity]; reflexivity).
Qed.

Lemma DefaultWXFEncoder_encode_childless_witness :
  ∃ r, ending r = Returned ∧
       ∀ P self h,
         DefaultWXFEncoder_encode P self (PyComplex (S754_zero false) (S754_zero true)) h =
         Some (r, h).
Proof.
  refine (DefaultWXFEncoder_encode_childless
    (PyComplex (S754_zero false) (S754_zero true)) _). reflexivity.
Defined.

(** On an encoder that was never registered, a list or mapping with at
    least one element is started and then abandoned: the header (and the
    symbol [List], or the first rule marker) is yielded before
    [serialize] fails with [AttributeError]. *)
Theorem DefaultWXFEncoder_encode_unbound_container P self h obj :
  encoder_objs h !! self = Some obj → _provider obj = None →
  (∀ x l, DefaultWXFEncoder_encode P self (PyList (x :: l)) h =
     Some (mkRun [WXFExprFunction (S (length l)); WXFExprSymbol "List"]
                 (Raised AttributeError), h)) ∧
  (∀ k v d, DefaultWXFEncoder_encode P self (PyDict ((k, v) :: d)) h =
     Some (mkRun [WXFExprAssociation (S (length d)); WXFExprRule]
                 (Raised AttributeError), h)).
Proof.
  intros Hobj Hp. split.
  - intros x l. rewrite DefaultWXFEncoder_encode_list, !gseq_yield.
    cbn [for_each]. unfold gseq. by rewrite (serialize_unbound _ _ _ _ _ Hobj Hp).
  - intros k v d. rewrite DefaultWXFEncoder_encode_dict, gseq_yield.
    cbn [for_each fst snd]. unfold gseq at 1. rewrite gseq_yield.
    unfold gseq. by rewrite (serialize_unbound _ _ _ _ _ Hobj Hp).
Qed.

Lemma DefaultWXFEncoder_encode_unbound_container_witness :
  DefaultWXFEncoder_encode (provide_wxfexpr 2) 4 (PyList [PyInt 1; PyInt 2])
    (WXFEncoder_init 4 DefaultWXFEncoder default_chain) =
  Some (mkRun [WXFExprFunction 2; WXFExprSymbol "List"] (Raised AttributeError),
        WXFEncoder_init 4 DefaultWXFEncoder default_chain).
Proof.
  refine (proj1 (DefaultWXFEncoder_encode_unbound_container (provide_wxfexpr 2) 4
    (WXFEncoder_init 4 DefaultWXFEncoder default_chain)
    (mkEncoder DefaultWXFEncoder None) _ _) (PyInt 1) [PyInt 2]); reflexivity.
Defined.

(** A loop stops at the first round that raises. *)
Lemma for_each_raised {A} (l1 l2 : list A) x (g : A → Gen) tss ts e h h1 :
  Forall2 (λ y us, g y h = Some (mkRun us Returned, h)) l1 tss →
  g x h = Some (mkRun ts (Raised e), h1) →
  for_each (l1 ++ x :: l2) g h = Some (mkRun (concat tss ++ ts) (Raised e), h1).
Proof.
  intros Hall Hx. induction Hall as [|y us l1 tss Hy _ IH].
  - cbn [app for_each concat]. unfold gseq. by rewrite Hx.
  - cbn [app for_each concat]. rewrite (gseq_returned _ _ _ _ _ Hy), IH.
    by rewrite <- app_assoc.
Qed.

(** The elements of a list are encoded one by one and the first failure
    ends the stream: if the provider returns for the elements before [x]
    and raises [e] on [x] after the tokens [ts], the default encoder has
    by then yielded the header, whose arity counts every element of the
    list, the symbol [List], the streams of the earlier elements and
    [ts]; it raises [e], and the elements after [x] add nothing. *)
Theorem DefaultWXFEncoder_encode_list_first_failure
    P self p l1 x l2 tss ts e h h1 :
  bound h self p →
  Forall2 (λ y us, P p y h = Some (mkRun us Returned, h)) l1 tss →
  P p x h = Some (mkRun ts (Raised e), h1) →
  DefaultWXFEncoder_encode P self (PyList (l1 ++ x :: l2)) h =
    Some (mkRun (WXFExprFunction (length l1 + S (length l2)) ::
                 WXFExprSymbol "List" :: concat tss ++ ts)
                (Raised e), h1).
Proof.
  intros (obj & Hobj & Hp) Hall Hx.
  rewrite DefaultWXFEncoder_encode_list, !gseq_yield.
  rewrite (for_each_raised l1 l2 x (serialize P self) tss ts e h h1).
  - by rewrite length_app.
  - eapply Forall2_impl; [exact Hall|]. intros y us Hy.
    by rewrite (serialize_bound _ _ _ _ _ _ Hobj Hp).
  - by rewrite (serialize_bound _ _ _ _ _ _ Hobj Hp).
Qed.

Lemma DefaultWXFEncoder_encode_list_first_failure_witness :
  DefaultWXFEncoder_encode (provide_wxfexpr 1) 1
    (PyList ([PyInt 1] ++ PyOther "set" :: [PyInt 3])) default_chain =
  Some (mkRun (WXFExprFunction (length [PyInt 1] + S (length [PyInt 3])) ::
               WXFExprSymbol "List" :: concat [[WXFExprInteger (PyInt 1)]] ++ [])
              (Raised (UnsupportedTypeError (Tother "set"))), default_chain).
Proof.
  refine (DefaultWXFEncoder_encode_list_first_failure (provide_wxfexpr 1) 1 0
    [PyInt 1] (PyOther "set") [PyInt 3] [[WXFExprInteger (PyInt 1)]] []
    (UnsupportedTypeError (Tother "set")) default_chain default_chain _ _ _).
  - exists (mkEncoder DefaultWXFEncoder (Some 0)). split; reflexivity.
  - repeat constructor.
  - reflexivity.
Defined.

(** The entries of a mapping are encoded one by one, key before value,
    and the first failure ends the stream.  After the header, whose arity
    counts every entry, and the rule triples of the earlier entries: if
    the provider raises on the key, only the rule marker and the tokens
    the key got out are added and the value is not encoded; if it raises
    on the value, the rule marker, the key's stream and the tokens the
    value got out are added.  Later entries add nothing. *)
Theorem DefaultWXFEncoder_encode_dict_first_failure
    P self p d1 k v d2 tss e h h1 :
  bound h self p →
  Forall2 (λ kv us, ∃ tk tv,
             P p kv.1 h = Some (mkRun tk Returned, h) ∧
             P p kv.2 h = Some (mkRun tv Returned, h) ∧
             us = WXFExprRule :: tk ++ tv) d1 tss →
  (∀ ts, P p k h = Some (mkRun ts (Raised e), h1) →
     DefaultWXFEncoder_encode P self (PyDict (d1 ++ (k, v) :: d2)) h =
       Some (mkRun (WXFExprAssociation (length d1 + S (length d2)) ::
                    concat tss ++ WXFExprRule :: ts)
                   (Raised e), h1)) ∧
  (∀ tk tv, P p k h = Some (mkRun tk Returned, h) →
     P p v h = Some (mkRun tv (Raised e), h1) →
     DefaultWXFEncoder_encode P self (PyDict (d1 ++ (k, v) :: d2)) h =
       Some (mkRun (WXFExprAssociation (length d1 + S (length d2)) ::
                    concat tss ++ WXFExprRule :: tk ++ tv)
                   (Raised e), h1)).
Proof.
  intros (obj & Hobj & Hp) Hall.
  assert (Hser : ∀ y, serialize P self y h = P p y h)
    by (intros y; by rewrite (serialize_bound _ _ _ _ _ _ Hobj Hp)).
  set (g := λ kv : PyObj * PyObj,
         (yield WXFExprRule ;; serialize P self kv.1 ;; serialize P self kv.2)).
  assert (Hearlier : Forall2 (λ kv us, g kv h = Some (mkRun us Returned, h)) d1 tss).
  { eapply Forall2_impl; [exact Hall|].
    intros kv us (tk & tv & Hk & Hv & ->). unfold g.
    rewrite <- Hser in Hk, Hv.
    by rewrite gseq_yield, (gseq_returned _ _ _ _ _ Hk), Hv. }
  split.
  - intros ts Hk. rewrite <- Hser in Hk.
    assert (g (k, v) h = Some (mkRun (WXFExprRule :: ts) (Raised e), h1)) as Hkv.
    { unfold g. cbn [fst snd]. rewrite gseq_yield. unfold gseq. by rewrite Hk. }
    rewrite DefaultWXFEncoder_encode_dict, gseq_yield. fold g.
    rewrite (for_each_raised d1 d2 (k, v) g tss _ e h h1 Hearlier Hkv).
    by rewrite length_app.
  - intros tk tv Hk Hv. rewrite <- Hser in Hk, Hv.
    assert (g (k, v) h = Some (mkRun (WXFExprRule :: tk ++ tv) (Raised e), h1)) as Hkv.
    { unfold g. cbn [fst snd].
      by rewrite gseq_yield, (gseq_returned _ _ _ _ _ Hk), Hv. }
    rewrite DefaultWXFEncoder_encode_dict, gseq_yield. fold g.
    rewrite (for_each_raised d1 d2 (k, v) g tss _ e h h1 Hearlier Hkv).
    by rewrite length_app.
Qed.

Lemma DefaultWXFEncoder_encode_dict_first_failure_witness :
  DefaultWXFEncoder_encode (provide_wxfexpr 1) 1
    (PyDict ([(PyStr "a", PyInt 1)] ++ (PyStr "b", PyOther "set") :: [])) default_chain =
  Some (mkRun (WXFExprAssociation (length [(PyStr "a", PyInt 1)] + S (length (@nil (PyObj * PyObj)))) ::
               concat [[WXFExprRule; WXFExprString (PyStr "a"); WXFExprInteger (PyInt 1)]] ++
               WXFExprRule :: [WXFExprString (PyStr "b")] ++ [])
              (Raised (UnsupportedTypeError (Tother "set"))), default_chain).
Proof.
  refine (proj2 (DefaultWXFEncoder_encode_dict_first_failure (provide_wxfexpr 1) 1 0
    [(PyStr "a", PyInt 1)] (PyStr "b") (PyOther "set") []
    [[WXFExprRule; WXFExprString (PyStr "a"); WXFExprInteger (PyInt 1)]]
    (UnsupportedTypeError (Tother "set")) default_chain default_chain _ _)
    [WXFExprString (PyStr "b")] [] _ _).
  - exists (mkEncoder DefaultWXFEncoder (Some 0)). split; reflexivity.
  - constructor; [|constructor].
    exists [WXFExprString (PyStr "a")], [WXFExprInteger (PyInt 1)].
    split; [reflexivity|split; reflexivity].
  - reflexivity.
  - reflexivity.
Defined.

Lemma gseq_run_then (g1 g2 : Gen) h r1 r2 :
  g1 h = Some (r1, h) → g2 h = Some (r2, h) →
  (g1 ;; g2) h = Some (run_then r1 r2, h).
Proof.
  intros H1 H2. unfold gseq, run_then. rewrite H1.
  destruct r1 as [ts1 [|e]]; cbn [ending tokens]; [by rewrite H2|done].
Qed.

Lemma for_each_run_then {A} (l : list A) (g : A → Gen) (f : A → Run) h :
  (∀ x, x ∈ l → g x h = Some (f x, h)) →
  for_each l g h =
    Some (foldr (λ x acc, run_then (f x) acc) (mkRun [] Returned) l, h).
Proof.
  induction l as [|x l IH]; intros Hg; [done|].
  cbn [for_each foldr]. apply gseq_run_then.
  - apply Hg. left.
  - apply IH. intros y Hy. apply Hg. by right.
Qed.

(** On a chain that holds the default encoder alone (the chain's own
    dispatch being that of section 4.1), the generators compute the
    recursive function [expected_run]: with a recursion bound above the
    depth of the value, the run of the entry point is the depth-first,
    left-to-right stream of the value, cut at the first nested value of a
    class outside the eight categories, where it raises. *)
Theorem provide_wxfexpr_default_only_expected h p e n o :
  default_only h p e → depth o < n →
  provide_wxfexpr n p o h = Some (expected_run o, h).
Proof.
  intros Hd. revert o. induction n as [|n IH]; intros o Hn; [lia|].
  rewrite (provide_wxfexpr_default_only n h p e o Hd).
  assert (Hser : ∀ v, serialize (provide_wxfexpr n) e v h = provide_wxfexpr n p v h).
  { intros v. destruct Hd as [_ He]. by apply (serialize_bound _ _ _ _ _ p He). }
  destruct o as [s|z|b|l|d| |x|re im|c]; try reflexivity.
  - rewrite DefaultWXFEncoder_encode_list, !gseq_yield.
    rewrite (for_each_run_then l _ expected_run h).
    + cbn [expected_run run_then ending tokens app].
      by destruct (foldr _ _ l) as [ts [|x]].
    + intros x Hx. rewrite Hser. apply IH.
      apply depth_list_elem in Hx. lia.
  - rewrite DefaultWXFEncoder_encode_dict, gseq_yield.
    rewrite (for_each_run_then d _
      (λ kv, run_then (mkRun [WXFExprRule] Returned)
               (run_then (expected_run kv.1) (expected_run kv.2))) h).
    + cbn [expected_run run_then ending tokens app].
      by destruct (foldr _ _ d) as [ts [|x]].
    + intros [k v] Hkv. apply depth_dict_entry in Hkv as [Hk Hv]. cbn [fst snd].
      rewrite gseq_yield.
      rewrite (gseq_run_then _ _ h (expected_run k) (expected_run v)).
      * done.
      * rewrite Hser. apply IH. lia.
      * rewrite Hser. apply IH. lia.
Qed.

Lemma provide_wxfexpr_default_only_expected_witness :
  provide_wxfexpr 3 0 nested_value default_chain =
    Some (expected_run nested_value, default_chain).
Proof.
  refine (provide_wxfexpr_default_only_expected default_chain 0 1 3 nested_value
    (conj eq_refl eq_refl) _).
  cbn. lia.
Defined.

(** * Properties of the client exceptions *)

Lemma py_or_empty m : py_or m "" = m.
Proof. by destruct m. Qed.

Lemma truthy_Some m : truthy (Some m) = true ↔ m ≠ "".
Proof. destruct m; cbn; split; done. Qed.

(** Where the message of a [RequestException] comes from.  A non-empty
    [msg] is stored as it is and [response.text()] is not consulted, even
    if it would raise; with no [msg], or an empty one, the message is what
    [response.text()] returns.  A constructed exception keeps its
    response, its message has one of these two sources, and it prints as
    the status between angle brackets, a colon, a space and the message. *)
Theorem RequestException_message_source r m :
  (∀ s, m = Some s → s ≠ "" →
     RequestException_init r m = Return (mkRequestException r s)) ∧
  (∀ t, truthy m = false → text r = Return t →
     RequestException_init r m = Return (mkRequestException r t)) ∧
  (∀ obj, RequestException_init r m = Return obj →
     response obj = r ∧
     (m = Some (msg obj) ∧ msg obj ≠ "" ∨
      truthy m = false ∧ text r = Return (msg obj)) ∧
     RequestException_str obj = "<" +:+ status r +:+ ">: " +:+ msg obj).
Proof.
  split_and!.
  - intros s -> Hs. by destruct s.
  - intros t Hm Ht. unfold RequestException_init. by rewrite Hm, Ht.
  - intros obj. unfold RequestException_init, RequestException_str.
    destruct (truthy m) eqn:Hm.
    + intros [= <-]. cbn [response msg]. rewrite py_or_empty.
      destruct m as [s|]; [|done]. cbn [default].
      split; [done|]. split; [|done]. left. split; [done|]. by apply truthy_Some.
    + destruct (text r) as [t|e] eqn:Ht; cbn [try_except]; [|done].
      intros [= <-]. cbn [response msg]. rewrite py_or_empty.
      split; [done|]. split; [|done]. by right.
Qed.

Lemma RequestException_message_source_witness :
  RequestException_init (mkResponse "404" (Raise "UnicodeDecodeError")) (Some "Not found.") =
    Return (mkRequestException
              (mkResponse "404" (Raise "UnicodeDecodeError")) "Not found.") ∧
  RequestException_init (mkResponse "500" (Return "oops")) (Some "") =
    Return (mkRequestException (mkResponse "500" (Return "oops")) "oops") ∧
  RequestException_str
    (mkRequestException (mkResponse "500" (Return "oops")) "oops") = "<500>: oops".
Proof.
  split; [|split].
  - refine (proj1 (RequestException_message_source
      (mkResponse "404" (Raise "UnicodeDecodeError")) (Some "Not found."))
      "Not found." _ _); [reflexivity|discriminate].
  - refine (proj1 (proj2 (RequestException_message_source
      (mkResponse "500" (Return "oops")) (Some ""))) "oops" _ _); reflexivity.
  - refine (proj2 (proj2 (proj2 (proj2 (RequestException_message_source
      (mkResponse "500" (Return "oops")) (Some ""))) _ _))). reflexivity.
Defined.

(** When there is no usable [msg] and [response.text()] raises, whatever
    it raises, the constructor fails with [NameError]: the handler names
    the unbound [UnicodeDecodeErrors].  Its fallback message is therefore
    dead code: an exception carries the text "Failed to decode request
    body." only if the caller or [response.text()] supplied it. *)
Theorem RequestException_text_failure r m :
  (∀ e, truthy m = false → text r = Raise e →
     RequestException_init r m = Raise "NameError") ∧
  (∀ obj, RequestException_init r m = Return obj →
     msg obj = "Failed to decode request body." →
     m = Some "Failed to decode request body." ∨
     text r = Return "Failed to decode request body.").
Proof.
  split.
  - intros e Hm Ht. unfold RequestException_init. by rewrite Hm, Ht.
  - intros obj. unfold RequestException_init.
    destruct (truthy m) eqn:Hm.
    + intros [= <-]. destruct m as [s|]; [|done].
      cbn. intros ->. by left.
    + destruct (text r) as [t|e] eqn:Ht; cbn [try_except]; [|done].
      intros [= <-]. cbn [msg]. intros ->. by right.
Qed.

Lemma RequestException_text_failure_witness :
  RequestException_init (mkResponse "502" (Raise "UnicodeDecodeError")) None =
    Raise "NameError".
Proof.
  refine (proj1 (RequestException_text_failure
    (mkResponse "502" (Raise "UnicodeDecodeError")) None) "UnicodeDecodeError" _ _);
    reflexivity.
Defined.


